(** * render-chat: the chat server of [src/unnamed/part_000]

    A shallow embedding of the Express / socket.io chat server and the
    properties its specification states about it.

    Conventions of the embedding.
    - A JavaScript string is a sequence of code units; the development
      works with the code units below 256, so that Rocq's [string] is the
      carrier and [String.length] is [.length].
    - Data that travels as JSON (request bodies, the socket handshake, the
      argument of [sendMessage], the two files) is a [json] term.  A place
      that may hold [undefined] is an [option json], [None] being
      [undefined].
    - [JNum] carries integer-valued numbers, printed in decimal by
      [to_string] (what JavaScript prints below 10^21).
    - [Date.now()] is an input of every handler that reads the clock.
    - The two files of [DATA_DIR] either fail to read or parse (then
      [readJSON] yields [null]) or hold a document of the shape the server
      writes there: an object for [USERS_FILE], an array for
      [MESSAGES_FILE].  Writing a file succeeds. *)

From Stdlib Require Import Ascii.
From stdpp Require Import base strings gmap list pretty.

Set Warnings "-register-all,-clear-no-such-hyp".
Local Open Scope string_scope.
Local Open Scope list_scope.
Local Open Scope nat_scope.

(** ** JavaScript data *)

Inductive json :=
| JNull
| JBool (b : bool)
| JNum (n : Z)
| JStr (s : string)
| JArr (l : list json)
| JObj (o : list (string * json)).

(** The result of a property read [o[k]] on an object parsed from JSON:
    an own property, a member inherited from [Object.prototype], or
    [undefined]. *)
Inductive value :=
| VUndefined
| VData (j : json)
| VBuiltin (name : string).

(** [!x] is [negb (truthy x)]. *)
Definition truthy (j : json) : bool :=
  match j with
  | JNull => false
  | JBool b => b
  | JNum n => negb (n =? 0)%Z
  | JStr s => negb (String.eqb s "")
  | JArr _ | JObj _ => true
  end.

Definition truthy_opt (x : option json) : bool :=
  match x with
  | None => false
  | Some j => truthy j
  end.

Definition truthy_value (v : value) : bool :=
  match v with
  | VUndefined => false
  | VData j => truthy j
  | VBuiltin _ => true
  end.

(** [typeof x === 'string'] *)
Definition is_string (x : option json) : bool :=
  match x with
  | Some (JStr _) => true
  | _ => false
  end.

(** [a === b] for two values that were deserialised separately: primitives
    compare by content, two arrays or two objects are never the same
    reference. *)
Definition json_strict_eq (a b : json) : bool :=
  match a, b with
  | JNull, JNull => true
  | JBool x, JBool y => Bool.eqb x y
  | JNum x, JNum y => (x =? y)%Z
  | JStr x, JStr y => String.eqb x y
  | _, _ => false
  end.

Definition strict_eq (v : value) (x : option json) : bool :=
  match v, x with
  | VUndefined, None => true
  | VData a, Some b => json_strict_eq a b
  | _, _ => false
  end.

(** [ToString], as used by property keys and template literals. *)
Fixpoint to_string (j : json) : string :=
  match j with
  | JNull => "null"
  | JBool true => "true"
  | JBool false => "false"
  | JNum n => pretty n
  | JStr s => s
  | JArr l =>
      (fix join (l : list json) : string :=
         match l with
         | [] => ""
         | x :: r =>
             let e := match x with JNull => "" | _ => to_string x end in
             match r with
             | [] => e
             | _ => e +:+ "," +:+ join r
             end
         end) l
  | JObj _ => "[object Object]"
  end.

Definition to_key (x : option json) : string :=
  match x with
  | None => "undefined"
  | Some j => to_string j
  end.

(** ** Objects used as maps *)

Definition object_prototype_members : list string :=
  [ "constructor"; "hasOwnProperty"; "isPrototypeOf"; "propertyIsEnumerable";
    "toLocaleString"; "toString"; "valueOf"; "__proto__";
    "__defineGetter__"; "__defineSetter__"; "__lookupGetter__";
    "__lookupSetter__" ].

(** [o[k]] *)
Definition js_get (o : gmap string json) (k : string) : value :=
  match o !! k with
  | Some j => VData j
  | None =>
      if bool_decide (k ∈ object_prototype_members) then VBuiltin k
      else VUndefined
  end.

(** [o[k] = s] for a string [s].  Every inherited member is a writable data
    property and is shadowed by the assignment, except the accessor
    [__proto__], whose setter ignores a string. *)
Definition js_set (o : gmap string json) (k : string) (s : string)
  : gmap string json :=
  match o !! k with
  | None => if String.eqb k "__proto__" then o else <[k := JStr s]> o
  | Some _ => <[k := JStr s]> o
  end.

(** ** [String.prototype.trim] *)

(** White space and line terminators among the code units below 256:
    TAB, LF, VT, FF, CR, SPACE and NBSP. *)
Definition is_ws (c : Ascii.ascii) : bool :=
  let n := Ascii.N_of_ascii c in
  ((9 <=? n) && (n <=? 13) || (n =? 32) || (n =? 160))%N.

Fixpoint trim_start (s : string) : string :=
  match s with
  | EmptyString => EmptyString
  | String c r => if is_ws c then trim_start r else s
  end.

Fixpoint trim_end (s : string) : string :=
  match s with
  | EmptyString => EmptyString
  | String c r =>
      match trim_end r with
      | EmptyString => if is_ws c then EmptyString else String c EmptyString
      | r' => String c r'
      end
  end.

Definition trim (s : string) : string := trim_end (trim_start s).

(** ** The two JSON files *)

(** What [readJSON] finds at a path: a file it cannot read or parse
    ([Unreadable]; a file holding a falsy JSON literal has the same effect
    on every reader, which continues with [|| {}] or [|| []]), or a
    document. *)
Inductive file (A : Type) :=
| Unreadable
| Document (d : A).
Arguments Unreadable {A}.
Arguments Document {A} d.

Record disk := Disk {
  USERS_FILE : file (gmap string json);
  MESSAGES_FILE : file (list json)
}.

(** [readJSON]: the parsed document, [null] ([None]) when reading or
    parsing throws. *)
Definition readJSON {A} (p : file A) : option A :=
  match p with
  | Unreadable => None
  | Document d => Some d
  end.

Definition writeJSON {A} (obj : A) : file A := Document obj.

(** [readJSON(USERS_FILE) || {}] and [readJSON(MESSAGES_FILE) || []] *)
Definition read_users (d : disk) : gmap string json :=
  default ∅ (readJSON (USERS_FILE d)).

Definition read_messages (d : disk) : list json :=
  default [] (readJSON (MESSAGES_FILE d)).

(** ** The HTTP routes *)

(** [req.user], the profile the identity provider asserted, and
    [req.body], the object [express.json()] parsed.  [emails] lists the
    [value] field of each entry. *)
Record profile := Profile {
  displayName : option string;
  emails : option (list string)
}.

Record request := Request {
  user : option profile;
  body : gmap string json
}.

(** The guard [!req.user || !req.user.emails || !req.user.emails.length] of
    both routes; past it, [req.user.emails[0].value]. *)
Definition session_email (req : request) : option string :=
  match user req with
  | None => None
  | Some p =>
      match emails p with
      | None | Some [] => None
      | Some (e :: _) => Some e
      end
  end.

(** [x || null] *)
Definition or_null (v : value) : value :=
  if truthy_value v then v else VData JNull.

Definition string_or_null (x : option string) : option string :=
  match x with
  | Some s => if String.eqb s "" then None else Some s
  | None => None
  end.

(** The object handed to [res.json] by [GET /api/user]. *)
Inductive user_reply :=
| Anonymous
| Authenticated (email : string) (name : option string) (username : value).

Definition api_user (d : disk) (req : request) : user_reply :=
  match session_email req with
  | None => Anonymous
  | Some email =>
      let users := read_users d in
      let username := or_null (js_get users email) in
      Authenticated email
        (string_or_null (from_option displayName None (user req))) username
  end.

(** The reply of [POST /api/set-username]: [{ok:false, error}] under a
    status code, or [{ok:true, username}]. *)
Inductive set_reply :=
| SetError (status : nat) (error : string)
| SetOk (username : string).

Definition api_set_username (d : disk) (req : request) : disk * set_reply :=
  match session_email req with
  | None => (d, SetError 401 "not authenticated")
  | Some email =>
      match body req !! "username" with
      | Some (JStr username) =>
          if negb (truthy (JStr username)) || (String.length username <? 2)%nat
          then (d, SetError 400 "invalid username")
          else
            let users := js_set (read_users d) email username in
            (Disk (writeJSON users) (MESSAGES_FILE d), SetOk username)
      | _ =>
          (* [!username || typeof username !== 'string'] *)
          (d, SetError 400 "invalid username")
      end
  end.

Definition api_messages (d : disk) : list json := read_messages d.

(** ** The real-time channel *)

(** What the server sends to a socket; [Closed] records
    [socket.disconnect()]. *)
Inductive event :=
| Init (messages : list json)
| Message (msg : json)
| System (text : string) (ts : Z)
| ErrorMsg (reason : string)
| Closed.

(** An admitted socket: its id and the [email] and [username] its handlers
    close over. *)
Record client := Client {
  sid : nat;
  c_email : json;
  c_username : json
}.

Record server := Server {
  data : disk;
  clients : list client
}.

Definition delivery : Type := nat * event.

(** [socket.emit], [socket.broadcast.emit] and [io.emit] over the sockets
    that are connected. *)
Definition socket_emit (id : nat) (e : event) : list delivery := [(id, e)].

Definition others (id : nat) (cs : list client) : list client :=
  List.filter (λ c, negb (sid c =? id)%nat) cs.

Definition broadcast_emit (id : nat) (cs : list client) (e : event)
  : list delivery :=
  map (λ c, (sid c, e)) (others id cs).

Definition io_emit (cs : list client) (e : event) : list delivery :=
  map (λ c, (sid c, e)) cs.

(** The test that refuses a connection,
    [!email || !username || users[email] !== username]. *)
Definition refused (users : gmap string json) (email username : option json)
  : bool :=
  negb (truthy_opt email) || negb (truthy_opt username)
  || negb (strict_eq (js_get users (to_key email)) username).

Definition on_connection (s : server) (id : nat)
    (handshake_auth : option (gmap string json)) (now : Z)
  : server * list delivery :=
  let auth := default ∅ handshake_auth in
  let email := auth !! "email" in
  let username := auth !! "username" in
  let users := read_users (data s) in
  let refuse :=
    (s, socket_emit id
          (ErrorMsg "Authentication invalid. Please reload and login.")
        ++ socket_emit id Closed) in
  match email, username with
  | Some e, Some u =>
      if refused users email username then refuse
      else
        let messages := read_messages (data s) in
        (Server (data s) (clients s ++ [Client id e u]),
         socket_emit id (Init messages)
         ++ broadcast_emit id (clients s)
              (System (to_string u +:+ " joined") now))
  | _, _ =>
      (* [!email || !username]: an [undefined] field is falsy *)
      refuse
  end.

Definition MAX : nat := 500.

(** [while (messages.length > MAX) messages.shift();] *)
Fixpoint shift_while (messages : list json) : list json :=
  match messages with
  | [] => []
  | _ :: rest =>
      if (MAX <? length messages)%nat then shift_while rest else messages
  end.

(** The record the [sendMessage] handler of client [c] builds. *)
Definition new_message (c : client) (text : string) (now : Z) : json :=
  JObj [ ("sender", c_username c); ("email", c_email c);
         ("text", JStr (trim text)); ("ts", JNum now) ].

Definition on_sendMessage (s : server) (c : client) (text : option json)
    (now : Z) : server * list delivery :=
  match text with
  | Some (JStr t) =>
      if negb (truthy (JStr t)) then (s, [])
      else
        let messages := read_messages (data s) in
        let msg := new_message c t now in
        let messages := shift_while (messages ++ [msg]) in
        (Server (Disk (USERS_FILE (data s)) (writeJSON messages)) (clients s),
         io_emit (clients s) (Message msg))
  | _ =>
      (* [!text || typeof text !== 'string'] *)
      (s, [])
  end.

Definition on_disconnect (s : server) (c : client) (now : Z)
  : server * list delivery :=
  let rest := others (sid c) (clients s) in
  (Server (data s) rest,
   broadcast_emit (sid c) rest
     (System (to_string (c_username c) +:+ " left") now)).

(** ** The server as a transition system *)

Inductive input :=
| Connection (id : nat) (handshake_auth : option (gmap string json)) (now : Z)
| SendMessage (id : nat) (text : option json) (now : Z)
| Disconnect (id : nat) (now : Z)
| SetUsername (req : request).

(** The handlers of a socket exist from its admission to its disconnection;
    an event for a socket without handlers is dropped. *)
Definition handlers_of (s : server) (id : nat) : option client :=
  List.find (λ c, (sid c =? id)%nat) (clients s).

Definition step (s : server) (i : input) : server * list delivery :=
  match i with
  | Connection id auth now => on_connection s id auth now
  | SendMessage id text now =>
      match handlers_of s id with
      | Some c => on_sendMessage s c text now
      | None => (s, [])
      end
  | Disconnect id now =>
      match handlers_of s id with
      | Some c => on_disconnect s c now
      | None => (s, [])
      end
  | SetUsername req =>
      (Server (fst (api_set_username (data s) req)) (clients s), [])
  end.

Fixpoint run (s : server) (inputs : list input) : server * list delivery :=
  match inputs with
  | [] => (s, [])
  | i :: rest =>
      let '(s1, out1) := step s i in
      let '(s2, out2) := run s1 rest in
      (s2, out1 ++ out2)
  end.

(** ** Vocabulary of the statements *)

(** The last [n] elements of a list, in order. *)
Definition last_n {A} (n : nat) (l : list A) : list A :=
  drop (length l - n) l.

(** The persisted Message Log, as every reader of the file sees it. *)
Definition message_log (s : server) : list json := read_messages (data s).

(** The records the [sendMessage] handlers create along a run, in the order
    of their creation. *)
Definition created_by (s : server) (i : input) : list json :=
  match i with
  | SendMessage id (Some (JStr t)) now =>
      match handlers_of s id with
      | Some c => if truthy (JStr t) then [new_message c t now] else []
      | None => []
      end
  | _ => []
  end.

Fixpoint submitted (s : server) (inputs : list input) : list json :=
  match inputs with
  | [] => []
  | i :: rest => created_by s i ++ submitted (fst (step s i)) rest
  end.

(** A field of [socket.handshake.auth || {}]. *)
Definition asserted (handshake_auth : option (gmap string json))
    (field : string) : option json :=
  default ∅ handshake_auth !! field.

(** The JSON values that [===] compares by content. *)
Definition primitive (j : json) : bool :=
  match j with
  | JArr _ | JObj _ => false
  | _ => true
  end.

(** The two outcomes of a connection attempt on socket [id]. *)
Definition rejection (id : nat) : list delivery :=
  [ (id, ErrorMsg "Authentication invalid. Please reload and login.");
    (id, Closed) ].

Definition accepts (s : server) (id : nat)
    (handshake_auth : option (gmap string json)) (now : Z) : Prop :=
  ∃ e u,
    asserted handshake_auth "email" = Some e
    ∧ asserted handshake_auth "username" = Some u
    ∧ on_connection s id handshake_auth now
      = (Server (data s) (clients s ++ [Client id e u]),
         (id, Init (message_log s))
         :: broadcast_emit id (clients s)
              (System (to_string u +:+ " joined") now)).

(** An Identity Record mapping as the specification describes it: every key
    is an e-mail address and every value a display name that
    [POST /api/set-username] accepts. *)
Definition is_address (k : string) : bool :=
  existsb (Ascii.eqb "@"%char) (String.list_ascii_of_string k).

Definition is_name (j : json) : bool :=
  match j with
  | JStr s => 2 <=? String.length s
  | _ => false
  end.

Definition identity_records (users : gmap string json) : bool :=
  forallb (λ kv, is_address (fst kv) && is_name (snd kv)) (map_to_list users).

(** The events a socket receives, in order, and the sockets a list of
    inputs opens. *)
Definition events_for (id : nat) (out : list delivery) : list event :=
  map snd (List.filter (λ d, (fst d =? id)) out).

Definition connection_ids (inputs : list input) : list nat :=
  omap (λ i, match i with Connection id _ _ => Some id | _ => None end) inputs.

Definition is_chat (e : event) : bool :=
  match e with
  | Message _ | System _ _ => true
  | _ => false
  end.

(** The sockets that are connected. *)
Definition sids (s : server) : list nat := map sid (clients s).

(** White space only, at the start, at the end. *)
Fixpoint all_ws (s : string) : bool :=
  match s with
  | EmptyString => true
  | String c r => is_ws c && all_ws r
  end.

Definition starts_with_ws (s : string) : bool :=
  match s with
  | EmptyString => false
  | String c _ => is_ws c
  end.

Fixpoint ends_with_ws (s : string) : bool :=
  match s with
  | EmptyString => false
  | String c EmptyString => is_ws c
  | String _ r => ends_with_ws r
  end.

(** A disk with every unreadable file replaced by the empty document of
    its kind, and the agreement of two disks, or two servers, on all that
    can be read from them. *)
Definition as_empty {A} (empty : A) (p : file A) : file A :=
  match p with
  | Unreadable => Document empty
  | Document d => Document d
  end.

Definition repaired (d : disk) : disk :=
  Disk (as_empty ∅ (USERS_FILE d)) (as_empty [] (MESSAGES_FILE d)).

Definition same_content (d1 d2 : disk) : Prop :=
  read_users d1 = read_users d2 ∧ read_messages d1 = read_messages d2.

Definition same_state (s1 s2 : server) : Prop :=
  same_content (data s1) (data s2) ∧ clients s1 = clients s2.

(** Sample data of the scenarios. *)
Module Sample.
Definition users : gmap string json :=
  {[ "a@x.com" := JStr "alice"; "b@x.com" := JStr "bob" ]}.
Definition start : server :=
  Server (Disk (Document users) (Document [])) [].
Definition auth (email username : string) : option (gmap string json) :=
  Some {[ "email" := JStr email; "username" := JStr username ]}.
Definition alice : client := Client 1 (JStr "a@x.com") (JStr "alice").
Definition bob : client := Client 2 (JStr "b@x.com") (JStr "bob").
Definition chat : server :=
  Server (Disk (Document users) (Document [])) [alice; bob].
Definition session (email : string) (candidate : option json) : request :=
  Request (Some (Profile (Some "A") (Some [email])))
    (match candidate with
     | Some j => {[ "username" := j ]}
     | None => ∅
     end).
Definition files : disk := Disk (Document users) Unreadable.
Definition wrong : option (gmap string json) := auth "a@x.com" "wrong".
Definition alice_joins : list input :=
  [Connection 1 (auth "a@x.com" "alice") 5%Z].
Definition bob_joins : input := Connection 2 (auth "b@x.com" "bob") 6%Z.
Definition alice_says_hi : input := SendMessage 1 (Some (JStr "hi")) 7%Z.
Definition flood : list input := replicate 501 alice_says_hi.
Definition record (text : string) : json :=
  JObj [ ("sender", JStr "alice"); ("email", JStr "a@x.com");
         ("text", JStr text); ("ts", JNum 7) ].
End Sample.

(** ** Start-up *)

(** What [fs.existsSync] finds at a path, and the data directory, [None]
    when [DATA_DIR] itself does not exist. *)
Inductive path (A : Type) :=
| Missing
| Found (f : file A).
Arguments Missing {A}.
Arguments Found {A} f.

Record directory := Directory {
  users_path : path (gmap string json);
  messages_path : path (list json)
}.

(** [if (!fs.existsSync(p)) fs.writeFileSync(p, JSON.stringify(empty))] *)
Definition ensure {A} (empty : A) (p : path A) : file A :=
  match p with
  | Missing => writeJSON empty
  | Found f => f
  end.

(** The top of the file: the data directory is made when it is missing,
    each file is created empty when it is missing, and the server starts
    without connected sockets. *)
Definition startup (data_dir : option directory) : server :=
  let dir := default (Directory Missing Missing) data_dir in
  Server (Disk (ensure ∅ (users_path dir)) (ensure [] (messages_path dir))) [].

(** ** Vocabulary of the further statements *)

(** The [POST /api/set-username] requests of a run, and their effect on a
    disk when served one after the other. *)
Definition set_requests (inputs : list input) : list request :=
  omap (λ i, match i with SetUsername req => Some req | _ => None end) inputs.

Definition replay (d : disk) (reqs : list request) : disk :=
  foldl (λ d req, fst (api_set_username d req)) d reqs.

(** The sockets a list of inputs closes, and the inputs that are left when
    the events of socket [id] are taken out. *)
Definition disconnect_ids (inputs : list input) : list nat :=
  omap (λ i, match i with Disconnect id _ => Some id | _ => None end) inputs.

Definition from_socket (id : nat) (i : input) : bool :=
  match i with
  | SendMessage id' _ _ | Disconnect id' _ => id' =? id
  | _ => false
  end.

Definition without_socket (id : nat) (inputs : list input) : list input :=
  List.filter (λ i, negb (from_socket id i)) inputs.

(** How many entries socket [id] has among the connected clients, and the
    records it receives as message events. *)
Definition connections_of (id : nat) (s : server) : nat :=
  length (List.filter (λ c, sid c =? id) (clients s)).

Definition messages_for (id : nat) (out : list delivery) : list json :=
  omap (λ e, match e with Message msg => Some msg | _ => None end)
    (events_for id out).

(** The handshake [{ auth: { email, username } }] of a client. *)
Definition handshake (email username : json) : option (gmap string json) :=
  Some {[ "email" := email; "username" := username ]}.


(** A client bound to a display name of at least two characters under an
    email that renders as an e-mail address, and a record as such a client
    creates it. *)
Definition well_bound (c : client) : bool :=
  is_name (c_username c) && is_address (to_string (c_email c)).

Definition well_formed_record (r : json) : Prop :=
  ∃ sender email text ts,
    r = JObj [ ("sender", JStr sender); ("email", email);
               ("text", JStr text); ("ts", JNum ts) ]
    ∧ 2 ≤ String.length sender
    ∧ is_address (to_string email) = true
    ∧ starts_with_ws text = false ∧ ends_with_ws text = false.

(** * Properties *)

(** ** The retention window *)

Section Retention.
Context {A : Type}.
Implicit Types l k : list A.
Implicit Types n : nat.

Lemma length_last_n n l : length (last_n n l) = Nat.min n (length l).
Proof. unfold last_n. rewrite length_drop. lia. Qed.

Lemma last_n_all n l : length l ≤ n → last_n n l = l.
Proof.
  intros Hle. unfold last_n.
  replace (length l - n) with 0 by lia. done.
Qed.

Lemma last_n_app_absorb n l k :
  last_n n (last_n n l ++ k) = last_n n (l ++ k).
Proof.
  unfold last_n. rewrite !length_app, length_drop, !drop_app, drop_drop.
  rewrite length_drop. f_equal; f_equal; lia.
Qed.

Lemma last_n_app_long n l k : n ≤ length k → last_n n (l ++ k) = last_n n k.
Proof.
  intros Hle. unfold last_n. rewrite length_app, drop_app.
  rewrite (drop_ge l) by lia. simpl. f_equal. lia.
Qed.
End Retention.

Lemma shift_while_last_n messages : shift_while messages = last_n MAX messages.
Proof.
  induction messages as [|m rest IH]; [done|].
  cbn [shift_while]. destruct (Nat.ltb_spec MAX (length (m :: rest))) as [Hlt|Hge].
  - rewrite IH. unfold last_n. cbn [length] in *.
    replace (S (length rest) - MAX) with (S (length rest - MAX)) by lia. done.
  - symmetry. by apply last_n_all.
Qed.

Lemma step_message_log s i :
  message_log (fst (step s i)) = last_n MAX (message_log s ++ created_by s i)
  ∨ (created_by s i = [] ∧ message_log (fst (step s i)) = message_log s).
Proof.
  destruct i as [id auth now|id text now|id now|req]; cbn [step created_by].
  - right. split; [done|]. unfold on_connection.
    repeat case_match; done.
  - destruct (handlers_of s id) as [c|]; [|by right; destruct text as [[]|]].
    unfold on_sendMessage.
    destruct text as [[| | |t| |]|]; try (by right).
    destruct (truthy (JStr t)); cbn [negb]; [|by right].
    left. unfold message_log. cbn. by rewrite shift_while_last_n.
  - right. split; [done|]. by destruct (handlers_of s id).
  - right. split; [done|]. unfold message_log, read_messages, api_set_username.
    repeat case_match; done.
Qed.

Lemma run_message_log inputs : ∀ s,
  length (message_log s) ≤ MAX →
  message_log (fst (run s inputs))
  = last_n MAX (message_log s ++ submitted s inputs).
Proof.
  induction inputs as [|i rest IH]; intros s Hs; cbn [run submitted].
  - rewrite app_nil_r. symmetry. by apply last_n_all.
  - destruct (step s i) as [s1 out1] eqn:Hstep.
    destruct (run s1 rest) as [s2 out2] eqn:Hrun.
    cbn [fst]. replace s2 with (fst (run s1 rest)) by (by rewrite Hrun).
    pose proof (step_message_log s i) as Hlog. rewrite Hstep in Hlog.
    cbn [fst] in Hlog. destruct Hlog as [Hlog|[Hnil Hlog]].
    + rewrite IH by (rewrite Hlog, length_last_n; lia).
      rewrite Hlog, app_assoc. apply last_n_app_absorb.
    + rewrite IH by (by rewrite Hlog). by rewrite Hlog, Hnil.
Qed.

(** C1.  Along every sequence of inputs, the [sendMessage] calls among them
    included, the persisted Message Log never holds more than 500 records:
    started from a log within the bound, the log after every prefix of the
    sequence has at most 500 records, and the final log is the last 500 of
    the initial records followed by the records submitted, in submission
    order.  Once more than 500 records have been submitted, the log is
    exactly the 500 most recent of them.  Whatever the log held before, one
    accepted submission drops its oldest records until the bound holds. *)
Theorem retention_window (s : server) (inputs : list input) :
  (∀ i, created_by s i ≠ [] → length (message_log (fst (step s i))) ≤ 500)
  ∧ (length (message_log s) ≤ 500 →
     (∀ k, length (message_log (fst (run s (take k inputs)))) ≤ 500)
     ∧ message_log (fst (run s inputs))
       = last_n 500 (message_log s ++ submitted s inputs)
     ∧ (500 < length (submitted s inputs) →
        message_log (fst (run s inputs)) = last_n 500 (submitted s inputs)
        ∧ length (message_log (fst (run s inputs))) = 500)).
Proof.
  change 500 with MAX. split.
  - intros i Hcreated. destruct (step_message_log s i) as [->|[? _]]; [|done].
    rewrite length_last_n. lia.
  - intros Hs. split; [|split].
    + intros k. rewrite run_message_log, length_last_n by done. lia.
    + by apply run_message_log.
    + intros Hmany. rewrite run_message_log by done.
      rewrite last_n_app_long by lia. split; [done|].
      rewrite length_last_n. lia.
Qed.

Lemma retention_window_witness :
  length (message_log Sample.chat) ≤ 500
  ∧ 500 < length (submitted Sample.chat Sample.flood)
  ∧ length (message_log (fst (run Sample.chat Sample.flood))) = 500.
Proof.
  assert (Hstart : length (message_log Sample.chat) ≤ 500)
    by (vm_compute; lia).
  assert (Hmany : 500 < length (submitted Sample.chat Sample.flood))
    by (vm_compute; lia).
  split; [exact Hstart|]. split; [exact Hmany|].
  destruct (retention_window Sample.chat Sample.flood) as [_ Hrun].
  destruct (Hrun Hstart) as (_ & _ & Hfull).
  exact (proj2 (Hfull Hmany)).
Defined.

(** ** The admission check *)

Lemma json_strict_eq_spec a b :
  json_strict_eq a b = true ↔ a = b ∧ primitive a = true.
Proof.
  destruct a, b; cbn; try (split; [done | intros [? ?]; done]).
  - rewrite Bool.eqb_true_iff. split; [by intros -> | by intros [[= ->] _]].
  - rewrite Z.eqb_eq. split; [by intros -> | by intros [[= ->] _]].
  - rewrite String.eqb_eq. split; [by intros -> | by intros [[= ->] _]].
Qed.

Lemma refused_spec users email username :
  refused users email username = false
  ↔ ∃ e u, email = Some e ∧ username = Some u
      ∧ truthy e = true ∧ truthy u = true ∧ primitive u = true
      ∧ users !! to_string e = Some u.
Proof.
  unfold refused. rewrite !orb_false_iff, !negb_false_iff. split.
  - intros [[He Hu] Heq].
    destruct email as [e|]; [|done]. destruct username as [u|]; [|done].
    exists e, u. cbn in He, Hu, Heq. unfold js_get in Heq.
    destruct (users !! to_string e) as [v|] eqn:Hv;
      [|by destruct (bool_decide _)].
    cbn in Heq. apply json_strict_eq_spec in Heq as [-> Hprim]. done.
  - intros (e & u & -> & -> & He & Hu & Hprim & Hv).
    cbn. unfold js_get. rewrite Hv. cbn. split; [done|].
    by apply json_strict_eq_spec.
Qed.

Lemma on_connection_cases s id auth now :
  let email := asserted auth "email" in
  let username := asserted auth "username" in
  (refused (read_users (data s)) email username = false
   ∧ accepts s id auth now)
  ∨ (refused (read_users (data s)) email username = true
     ∧ on_connection s id auth now = (s, rejection id)).
Proof.
  intros email username. unfold accepts, on_connection, asserted in *.
  subst email username.
  destruct (default ∅ auth !! "email") as [e|] eqn:He;
    destruct (default ∅ auth !! "username") as [u|] eqn:Hu.
  - destruct (refused _ _ _) eqn:Href; [by right|].
    left. split; [done|]. by exists e, u.
  - right. split; [|done]. unfold refused. cbn. by destruct (truthy e).
  - by right.
  - by right.
Qed.

Lemma rejection_not_admission s id auth now :
  on_connection s id auth now = (s, rejection id) → ¬ accepts s id auth now.
Proof.
  intros Hrej (e & u & _ & _ & Hadm). rewrite Hrej in Hadm.
  by injection Hadm.
Qed.



(** ** Who receives what *)

Lemma events_for_app id out1 out2 :
  events_for id (out1 ++ out2) = events_for id out1 ++ events_for id out2.
Proof. unfold events_for. by rewrite List.filter_app, map_app. Qed.

Lemma events_for_cons id id' e out :
  events_for id ((id', e) :: out)
  = if id' =? id then e :: events_for id out else events_for id out.
Proof. unfold events_for. cbn. by destruct (id' =? id). Qed.

Lemma events_for_stranger id out :
  id ∉ map fst out → events_for id out = [].
Proof.
  induction out as [|[id' e] out IH]; [done|]. cbn.
  rewrite not_elem_of_cons. intros [Hne Hout].
  unfold events_for in *. cbn.
  destruct (Nat.eqb_spec id' id) as [->|_]; [done|]. by apply IH.
Qed.


Lemma elem_of_others c id cs : c ∈ others id cs → c ∈ cs ∧ sid c ≠ id.
Proof.
  unfold others. rewrite !list_elem_of_In, List.filter_In, negb_true_iff.
  intros [Hc Hne]. split; [done|]. by apply Nat.eqb_neq.
Qed.

Lemma handlers_of_Some s id c : handlers_of s id = Some c → c ∈ clients s ∧ sid c = id.
Proof.
  unfold handlers_of. intros Hfind. apply List.find_some in Hfind as [Hin Heq].
  split; [by apply list_elem_of_In | by apply Nat.eqb_eq].
Qed.

(** Every delivery of a step goes to a socket that was connected, as a chat
    event, or to the socket the step opens. *)
Lemma step_deliveries s i :
  Forall (λ d, (fst d ∈ sids s ∧ is_chat (snd d) = true)
               ∨ fst d ∈ connection_ids [i])
    (snd (step s i)).
Proof.
  assert (Hbroadcast : ∀ id e, is_chat e = true →
    Forall (λ d, fst d ∈ sids s ∧ is_chat (snd d) = true)
      (broadcast_emit id (clients s) e)).
  { intros id e He. unfold broadcast_emit. apply Forall_map, Forall_forall.
    intros c Hc%elem_of_others. split; [|done].
    unfold sids. apply list_elem_of_fmap. exists c. naive_solver. }
  destruct i as [id auth now|id text now|id now|req]; cbn [step].
  - destruct (on_connection_cases s id auth now) as [[_ Hadm]|[_ Hrej]].
    + destruct Hadm as (e & u & _ & _ & ->). cbn [snd]. constructor.
      * right. cbn. set_solver.
      * eapply Forall_impl; [by apply Hbroadcast|]. naive_solver.
    + rewrite Hrej. cbn [snd]. unfold rejection.
      repeat constructor; right; cbn; set_solver.
  - destruct (handlers_of s id) as [c|]; [|constructor].
    unfold on_sendMessage. destruct text as [[| | |t| |]|]; try constructor.
    destruct (truthy (JStr t)); [|constructor]. cbn.
    unfold io_emit. apply Forall_map, Forall_forall. intros c' Hc'. left.
    split; [|done]. unfold sids. apply list_elem_of_fmap. by exists c'.
  - destruct (handlers_of s id) as [c|]; [|constructor]. cbn.
    unfold broadcast_emit. apply Forall_map, Forall_forall.
    intros c' [Hc'%elem_of_others _]%elem_of_others. left.
    split; [|done]. unfold sids. apply list_elem_of_fmap. exists c'. naive_solver.
  - constructor.
Qed.

(** A step connects no socket other than the one it opens. *)
Lemma step_sids s i id :
  id ∈ sids (fst (step s i)) → id ∈ sids s ∨ id ∈ connection_ids [i].
Proof.
  destruct i as [id' auth now|id' text now|id' now|req]; cbn [step].
  - destruct (on_connection_cases s id' auth now) as [[_ Hadm]|[_ Hrej]].
    + destruct Hadm as (e & u & _ & _ & ->). unfold sids. cbn.
      rewrite map_app, elem_of_app. cbn. set_solver.
    + rewrite Hrej. by left.
  - destruct (handlers_of s id') as [c|]; [|by left].
    unfold on_sendMessage. repeat case_match; by left.
  - destruct (handlers_of s id') as [c|]; [|by left]. cbn. unfold sids. cbn.
    intros (c' & -> & Hc')%list_elem_of_fmap. left.
    apply elem_of_others in Hc' as [Hc' _]. apply list_elem_of_fmap. by exists c'.
  - by left.
Qed.


Lemma run_deliveries inputs : ∀ s,
  Forall (λ d, (fst d ∈ sids s ∧ is_chat (snd d) = true)
               ∨ fst d ∈ connection_ids inputs)
    (snd (run s inputs))
  ∧ ∀ id, id ∈ sids (fst (run s inputs)) →
          id ∈ sids s ∨ id ∈ connection_ids inputs.
Proof.
  induction inputs as [|i rest IH]; intros s; cbn [run].
  - split; [constructor | by left].
  - pose proof (step_deliveries s i) as Hout.
    pose proof (step_sids s i) as Hsids.
    destruct (step s i) as [s1 out1]. destruct (IH s1) as [IHout IHsids].
    destruct (run s1 rest) as [s2 out2]. cbn [fst snd] in *.
    assert (Hcons : ∀ id, id ∈ connection_ids [i] ∨ id ∈ connection_ids rest
                          → id ∈ connection_ids (i :: rest)).
    { intros id. unfold connection_ids. cbn. destruct i; cbn; set_solver. }
    split.
    + apply Forall_app. split.
      * eapply Forall_impl; [exact Hout|]. naive_solver.
      * eapply Forall_impl; [exact IHout|]. cbn. intros d [[Hd ?]|?]; [|naive_solver].
        destruct (Hsids _ Hd); naive_solver.
    + intros id Hid. destruct (IHsids _ Hid) as [Hid1|?]; [|naive_solver].
      destruct (Hsids _ Hid1); naive_solver.
Qed.


Lemma run_events_for_stranger s inputs id :
  id ∉ sids s → id ∉ connection_ids inputs →
  events_for id (snd (run s inputs)) = [] ∧ id ∉ sids (fst (run s inputs)).
Proof.
  intros Hs Hid. destruct (run_deliveries inputs s) as [Hout Hsids]. split.
  - apply events_for_stranger. intros (d & -> & Hd)%list_elem_of_fmap.
    rewrite Forall_forall in Hout. destruct (Hout _ Hd) as [[? _]|?]; done.
  - intros Hin. destruct (Hsids _ Hin); done.
Qed.

Lemma identity_records_lookup users k v :
  identity_records users = true → users !! k = Some v →
  is_address k = true ∧ is_name v = true.
Proof.
  unfold identity_records. rewrite forallb_forall. intros Hall Hk.
  apply andb_true_iff, (Hall (k, v)), list_elem_of_In.
  by apply elem_of_map_to_list.
Qed.



(** ** Trimming *)

Lemma append_cons c r s : String c r +:+ s = String c (r +:+ s).
Proof. reflexivity. Qed.

Lemma trim_start_spec s :
  ∃ pre, s = pre +:+ trim_start s ∧ all_ws pre = true
         ∧ starts_with_ws (trim_start s) = false.
Proof.
  induction s as [|c r (pre & Hr & Hpre & Hstart)]; [by exists ""|].
  cbn [trim_start]. destruct (is_ws c) eqn:Hc.
  - exists (String c pre). rewrite append_cons, <- Hr. cbn. by rewrite Hc.
  - exists "". cbn. by rewrite Hc.
Qed.

Lemma trim_end_spec s :
  ∃ post, s = trim_end s +:+ post ∧ all_ws post = true
          ∧ ends_with_ws (trim_end s) = false
          ∧ (starts_with_ws s = false → starts_with_ws (trim_end s) = false).
Proof.
  induction s as [|c r (post & Hr & Hpost & Hend & _)]; [by exists ""|].
  cbn [trim_end]. destruct (trim_end r) as [|c' r'] eqn:Htrim.
  - change ("" +:+ post) with post in Hr. subst post.
    destruct (is_ws c) eqn:Hc.
    + exists (String c r). cbn. by rewrite Hc, Hpost.
    + exists r. cbn. by rewrite Hc.
  - exists post. rewrite append_cons, <- Hr. done.
Qed.

Lemma trim_spec t :
  ∃ pre post, t = pre +:+ trim t +:+ post
    ∧ all_ws pre = true ∧ all_ws post = true
    ∧ starts_with_ws (trim t) = false ∧ ends_with_ws (trim t) = false.
Proof.
  destruct (trim_start_spec t) as (pre & Ht & Hpre & Hstart).
  destruct (trim_end_spec (trim_start t)) as (post & Hs & Hpost & Hend & Hkeep).
  exists pre, post. unfold trim. rewrite <- Hs. repeat split; auto.
Qed.

Lemma all_ws_app s1 s2 : all_ws (s1 +:+ s2) = all_ws s1 && all_ws s2.
Proof.
  induction s1 as [|c r IH]; [done|]. rewrite append_cons. cbn.
  by rewrite IH, andb_assoc.
Qed.

Lemma trim_empty_iff t : trim t = "" ↔ all_ws t = true.
Proof.
  destruct (trim_spec t) as (pre & post & Ht & Hpre & Hpost & Hstart & Hend).
  split.
  - intros Hempty. rewrite Ht, Hempty, !all_ws_app, Hpre, Hpost. done.
  - intros Hall. rewrite Ht, !all_ws_app in Hall.
    apply andb_true_iff in Hall as [_ [Hmid _]%andb_true_iff].
    destruct (trim t) as [|c r]; [done|]. cbn in Hstart, Hmid.
    by rewrite Hstart in Hmid.
Qed.

(** ** Admission: history first, announcement to the others *)

Lemma others_fresh id cs : id ∉ map sid cs → others id cs = cs.
Proof.
  induction cs as [|c cs IH]; [done|]. unfold others in *.
  cbn [map List.filter]. intros [Hne Hcs]%not_elem_of_cons.
  destruct (Nat.eqb_spec (sid c) id) as [Heq|_]; [done|].
  cbn. by rewrite IH.
Qed.

Lemma broadcast_emit_not_self id cs e :
  events_for id (broadcast_emit id cs e) = [].
Proof.
  apply events_for_stranger. unfold broadcast_emit.
  rewrite <- list_fmap_compose.
  intros (c & -> & Hc%elem_of_others)%list_elem_of_fmap. by destruct Hc.
Qed.



(** ** Submitting a message *)

Lemma last_n_snoc {A} n (l : list A) x :
  0 < n → last (last_n n (l ++ [x])) = Some x.
Proof.
  intros Hn. unfold last_n. rewrite length_app, drop_app_le by (cbn; lia).
  apply last_snoc.
Qed.

Lemma on_sendMessage_accepts s c t now :
  t ≠ "" →
  on_sendMessage s c (Some (JStr t)) now
  = (Server (Disk (USERS_FILE (data s))
               (Document (last_n MAX (message_log s ++ [new_message c t now]))))
       (clients s),
     io_emit (clients s) (Message (new_message c t now))).
Proof.
  intros Ht. unfold on_sendMessage. cbn [truthy].
  destruct (String.eqb_spec t "") as [|_]; [done|]. cbn [negb].
  by rewrite shift_while_last_n.
Qed.

Lemma find_after_strangers id cs cs' :
  id ∉ map sid cs →
  List.find (λ c, sid c =? id) (cs ++ cs')
  = List.find (λ c, sid c =? id) cs'.
Proof.
  induction cs as [|c cs IH]; [done|]. cbn [map app List.find].
  intros [Hne Hcs]%not_elem_of_cons.
  destruct (Nat.eqb_spec (sid c) id) as [Heq|_]; [done|]. by apply IH.
Qed.

(** C7.  A string submitted by an admitted connection (the empty string
    apart, which the handler drops) yields one record whose sender and email
    are the ones bound to the connection at its admission, the username and
    email it asserted, and whose text is the input without its leading and
    trailing white space.  That record becomes the last of the persisted log
    and is delivered as a message event to every connected client, the
    submitter included. *)
Theorem submit_record (s : server) (id : nat) (c : client) (t : string)
    (now : Z) :
  handlers_of s id = Some c → t ≠ "" →
  let msg := JObj [ ("sender", c_username c); ("email", c_email c);
                    ("text", JStr (trim t)); ("ts", JNum now) ] in
  let r := step s (SendMessage id (Some (JStr t)) now) in
  message_log (fst r) = last_n 500 (message_log s ++ [msg])
  ∧ last (message_log (fst r)) = Some msg
  ∧ snd r = map (λ c', (sid c', Message msg)) (clients s)
  ∧ (id, Message msg) ∈ snd r
  ∧ (∃ pre post, t = pre +:+ trim t +:+ post
       ∧ all_ws pre = true ∧ all_ws post = true
       ∧ starts_with_ws (trim t) = false ∧ ends_with_ws (trim t) = false)
  ∧ trim "  hello  " = "hello"
  ∧ (∀ s0 auth now0, id ∉ sids s0 → accepts s0 id auth now0 →
       ∃ e u, asserted auth "email" = Some e
         ∧ asserted auth "username" = Some u
         ∧ handlers_of (fst (on_connection s0 id auth now0)) id
           = Some (Client id e u)).
Proof.
  intros Hc Ht msg r. subst r. cbn [step]. rewrite Hc.
  rewrite on_sendMessage_accepts by done. fold msg. cbn [fst snd].
  apply handlers_of_Some in Hc as [Hin Hsid].
  split; [done|]. split; [apply (last_n_snoc MAX); unfold MAX; lia|].
  split; [done|].
  split; [|split; [apply trim_spec|split; [done|]]].
  - unfold io_emit. apply list_elem_of_fmap. exists c. by rewrite Hsid.
  - intros s0 auth now0 Hfresh (e & u & He & Hu & ->). exists e, u.
    split; [done|]. split; [done|]. unfold handlers_of. cbn [fst clients].
    rewrite find_after_strangers by done. cbn. by rewrite Nat.eqb_refl.
Qed.

Lemma submit_record_witness :
  handlers_of
    (fst (run Sample.start (Sample.alice_joins ++ [Sample.bob_joins]))) 1
  = Some Sample.alice
  ∧ snd (step
           (fst (run Sample.start (Sample.alice_joins ++ [Sample.bob_joins])))
           Sample.alice_says_hi)
    = [(1, Message (Sample.record "hi")); (2, Message (Sample.record "hi"))].
Proof.
  assert (Hc : handlers_of
                 (fst (run Sample.start
                         (Sample.alice_joins ++ [Sample.bob_joins]))) 1
               = Some Sample.alice) by reflexivity.
  split; [exact Hc|].
  assert (Ht : "hi" ≠ "") by discriminate.
  destruct (submit_record _ 1 Sample.alice "hi" 7%Z Hc Ht)
    as (_ & _ & Hout & _).
  unfold Sample.alice_says_hi. rewrite Hout. reflexivity.
Defined.

Lemma on_sendMessage_drops s c text now :
  is_string text = false ∨ text = Some (JStr "") →
  on_sendMessage s c text now = (s, []).
Proof.
  intros [Hnot| ->]; [|done].
  by destruct text as [[| | |t| |]|].
Qed.

(** C4, as the handler has it.  The submission of an admitted connection is
    dropped without any effect (the server state is untouched and nothing
    is sent) exactly when the text is absent, is not a string, or is the
    empty string.  Every other text is a non-empty string, for which the
    handler creates one record, persists the log with that record at its
    end, and broadcasts the record, to the submitter among the others. *)
Theorem submit_guard (s : server) (id : nat) (c : client)
    (text : option json) (now : Z) :
  handlers_of s id = Some c →
  let dropped := text = None ∨ is_string text = false
                 ∨ text = Some (JStr "") in
  let r := step s (SendMessage id text now) in
  (dropped → r = (s, []) ∧ created_by s (SendMessage id text now) = [])
  ∧ (¬ dropped →
     ∃ t, text = Some (JStr t)
       ∧ created_by s (SendMessage id text now) = [new_message c t now]
       ∧ MESSAGES_FILE (data (fst r))
         = Document (last_n 500 (message_log s ++ [new_message c t now]))
       ∧ snd r = io_emit (clients s) (Message (new_message c t now))
       ∧ (id, Message (new_message c t now)) ∈ snd r)
  ∧ (snd r = [] ↔ dropped).
Proof.
  intros Hc dropped r. subst r. cbn [step created_by]. rewrite Hc.
  assert (Hcases : dropped ∨ ∃ t, text = Some (JStr t) ∧ t ≠ "").
  { unfold dropped. destruct text as [[| | |t| |]|]; auto.
    destruct (String.eqb_spec t "") as [->|Ht]; [auto|]. right. by exists t. }
  assert (Hdrop : dropped →
    on_sendMessage s c text now = (s, [])
    ∧ match text with
      | Some (JStr t) => if truthy (JStr t) then [new_message c t now] else []
      | _ => []
      end = []).
  { intros [Hd|[Hd|Hd]]; subst; [done| |done].
    by destruct text as [[| | |t| |]|]. }
  assert (Hkeep : ∀ t, text = Some (JStr t) → t ≠ "" →
    ¬ dropped
    ∧ (id, Message (new_message c t now))
      ∈ io_emit (clients s) (Message (new_message c t now))).
  { intros t -> Ht. split.
    - intros [?|[?|[= ?]]]; done.
    - apply handlers_of_Some in Hc as [Hin Hsid].
      unfold io_emit. apply list_elem_of_fmap. exists c. by rewrite Hsid. }
  split; [exact Hdrop|]. split.
  - intros Hnd. destruct Hcases as [?|(t & -> & Ht)]; [done|]. exists t.
    destruct (Hkeep t eq_refl Ht) as [_ Hin].
    rewrite on_sendMessage_accepts by done. cbn [fst snd data MESSAGES_FILE].
    cbn [truthy]. destruct (String.eqb_spec t "") as [|_]; done.
  - split; [|by intros [-> _]%Hdrop].
    intros Hnil. destruct Hcases as [?|(t & -> & Ht)]; [done|].
    destruct (Hkeep t eq_refl Ht) as [_ Hin].
    rewrite on_sendMessage_accepts in Hnil by done. cbn [snd] in Hnil.
    rewrite Hnil in Hin. by apply elem_of_nil in Hin.
Qed.

Lemma submit_guard_witness :
  handlers_of Sample.chat 1 = Some Sample.alice
  ∧ step Sample.chat (SendMessage 1 (Some (JStr "")) 0%Z) = (Sample.chat, []).
Proof.
  assert (Hc : handlers_of Sample.chat 1 = Some Sample.alice) by reflexivity.
  split; [exact Hc|].
  apply (submit_guard Sample.chat 1 Sample.alice (Some (JStr "")) 0%Z Hc).
  right. right. reflexivity.
Defined.

(** Against C4 as first stated (dropped exactly when the text is absent or
    not a string): the empty string is present and is a string, and its
    submission is dropped all the same. *)
Lemma empty_text_is_dropped :
  ¬ (step Sample.chat (SendMessage 1 (Some (JStr "")) 0%Z) = (Sample.chat, [])
     ↔ Some (JStr "") = None ∨ is_string (Some (JStr "")) = false).
Proof.
  intros [Hdropped _].
  destruct Hdropped as [Habsent|Hnot]; [reflexivity | discriminate..].
Qed.

(** C5.  The text of a record is the trimmed input, and it is empty exactly
    when the input holds white space only.  Such an input is not the empty
    string, so it passes the guard of the handler, which tests the text
    before it trims it: submitting three spaces stores and broadcasts a
    record whose text is the empty string. *)
Theorem blank_text_is_stored :
  (∀ t, trim t = "" ↔ all_ws t = true)
  ∧ step Sample.chat (SendMessage 1 (Some (JStr "   ")) 7%Z)
    = (Server (Disk (Document Sample.users) (Document [Sample.record ""]))
         [Sample.alice; Sample.bob],
       [(1, Message (Sample.record "")); (2, Message (Sample.record ""))]).
Proof. split; [apply trim_empty_iff | reflexivity]. Qed.

(** ** Display names *)

Lemma js_get_set_same users e u :
  e ≠ "__proto__" → js_get (js_set users e u) e = VData (JStr u).
Proof.
  intros He. unfold js_get, js_set.
  destruct (String.eqb_spec e "__proto__") as [|_]; [done|].
  destruct (users !! e); by rewrite lookup_insert_eq.
Qed.

Lemma js_set_other users e u e' :
  e' ≠ e → js_set users e u !! e' = users !! e'.
Proof.
  intros Hne. unfold js_set.
  destruct (users !! e), (String.eqb e "__proto__");
    by rewrite ?lookup_insert_ne.
Qed.

Lemma name_guard_passes u :
  2 ≤ String.length u →
  negb (truthy (JStr u)) || (String.length u <? 2) = false.
Proof.
  intros Hlen. apply orb_false_iff. split.
  - destruct u; [cbn in Hlen; lia | reflexivity].
  - apply Nat.ltb_ge. lia.
Qed.

(** C3.  For every authenticated email (an address the provider asserts,
    which the reserved property name [__proto__] is not) and every string
    of at least two characters, setting the username succeeds and a
    following [GET /api/user] of a session with that email reports exactly
    that username. *)
Theorem set_then_get (d : disk) (req req' : request) (e u : string) :
  session_email req = Some e →
  body req !! "username" = Some (JStr u) →
  2 ≤ String.length u →
  e ≠ "__proto__" →
  session_email req' = Some e →
  ∃ d', api_set_username d req = (d', SetOk u)
    ∧ ∃ name, api_user d' req' = Authenticated e name (VData (JStr u)).
Proof.
  intros He Hu Hlen Hproto He'. unfold api_set_username, api_user.
  rewrite He, Hu, name_guard_passes by done. eexists. split; [done|].
  rewrite He'. eexists. f_equal. unfold read_users at 1. cbn.
  rewrite js_get_set_same by done. unfold or_null.
  destruct u; [cbn in Hlen; lia | reflexivity].
Qed.

Lemma set_then_get_witness :
  2 ≤ String.length "al"
  ∧ ∃ d', api_set_username (Disk Unreadable Unreadable)
            (Sample.session "a@x.com" (Some (JStr "al")))
          = (d', SetOk "al")
      ∧ ∃ name, api_user d' (Sample.session "a@x.com" None)
                = Authenticated "a@x.com" name (VData (JStr "al")).
Proof.
  assert (Hlen : 2 ≤ String.length "al") by (vm_compute; lia).
  split; [exact Hlen|].
  apply (set_then_get (Disk Unreadable Unreadable)
           (Sample.session "a@x.com" (Some (JStr "al")))
           (Sample.session "a@x.com" None) "a@x.com" "al");
    [reflexivity | reflexivity | exact Hlen | discriminate | reflexivity].
Defined.

(** C8.  Setting a username fails with 401 when the session carries no
    verified email, and fails with 400 for an authenticated caller whose
    candidate is absent, is not a string, or has fewer than two characters.
    Whenever it fails, nothing is written: the disk, and with it the
    display name stored for that email, is as before. *)
Theorem set_username_failures (d : disk) (req : request) :
  (session_email req = None →
   api_set_username d req = (d, SetError 401 "not authenticated"))
  ∧ (∀ e, session_email req = Some e →
       (body req !! "username" = None
        ∨ is_string (body req !! "username") = false
        ∨ ∃ u, body req !! "username" = Some (JStr u) ∧ String.length u < 2) →
       api_set_username d req = (d, SetError 400 "invalid username"))
  ∧ (∀ status error,
       snd (api_set_username d req) = SetError status error →
       fst (api_set_username d req) = d
       ∧ ∀ e, js_get (read_users (fst (api_set_username d req))) e
              = js_get (read_users d) e).
Proof.
  unfold api_set_username. split; [by intros ->|]. split.
  - intros e -> Hbad.
    destruct Hbad as [->|[Hnot|(u & -> & Hlen)]]; [done| |].
    + by destruct (body req !! "username") as [[| | |u| |]|].
    + apply Nat.ltb_lt in Hlen. by rewrite Hlen, orb_true_r.
  - intros status error.
    destruct (session_email req) as [e|]; [|done].
    destruct (body req !! "username") as [[| | |u| |]|]; try done.
    by destruct (negb (truthy (JStr u)) || (String.length u <? 2)).
Qed.

Lemma set_username_failures_witness :
  session_email (Sample.session "a@x.com" (Some (JStr "x")))
  = Some "a@x.com"
  ∧ api_set_username Sample.files (Sample.session "a@x.com" (Some (JStr "x")))
    = (Sample.files, SetError 400 "invalid username").
Proof.
  assert (He : session_email (Sample.session "a@x.com" (Some (JStr "x")))
               = Some "a@x.com") by reflexivity.
  split; [exact He|].
  apply (set_username_failures Sample.files
           (Sample.session "a@x.com" (Some (JStr "x"))))
    with (e := "a@x.com"); [exact He|].
  right. right. exists "x". split; [reflexivity | vm_compute; lia].
Defined.

(** C10.  A successful [POST /api/set-username] over a user store that
    parses leaves the display name stored for every email other than the
    caller's as it was. *)
Theorem set_username_frame (d : disk) (req : request)
    (users : gmap string json) (e u : string) :
  USERS_FILE d = Document users →
  session_email req = Some e →
  snd (api_set_username d req) = SetOk u →
  ∀ e', e' ≠ e →
    read_users (fst (api_set_username d req)) !! e' = users !! e'
    ∧ js_get (read_users (fst (api_set_username d req))) e' = js_get users e'.
Proof.
  intros Hfile He Hok e' Hne. revert Hok. unfold api_set_username.
  rewrite He. destruct (body req !! "username") as [[| | |v| |]|]; try done.
  destruct (negb (truthy (JStr v)) || (String.length v <? 2)); [done|].
  intros _. unfold read_users. rewrite Hfile. cbn.
  assert (Hsame : js_set users e v !! e' = users !! e')
    by (by apply js_set_other).
  split; [done|]. unfold js_get. by rewrite Hsame.
Qed.

Lemma set_username_frame_witness :
  snd (api_set_username Sample.files
         (Sample.session "a@x.com" (Some (JStr "al"))))
  = SetOk "al"
  ∧ read_users
      (fst (api_set_username Sample.files
              (Sample.session "a@x.com" (Some (JStr "al")))))
    !! "b@x.com"
    = Some (JStr "bob").
Proof.
  assert (Hok : snd (api_set_username Sample.files
                       (Sample.session "a@x.com" (Some (JStr "al"))))
                = SetOk "al") by reflexivity.
  split; [exact Hok|].
  transitivity (Sample.users !! "b@x.com"); [|reflexivity].
  apply (set_username_frame Sample.files
           (Sample.session "a@x.com" (Some (JStr "al")))
           Sample.users "a@x.com" "al");
    [reflexivity | reflexivity | exact Hok | discriminate].
Defined.

(** ** Files that cannot be read *)

Lemma same_content_repaired d : same_content d (repaired d).
Proof. by destruct d as [[|users] [|messages]]. Qed.

Lemma api_set_username_same d1 d2 req :
  same_content d1 d2 →
  snd (api_set_username d1 req) = snd (api_set_username d2 req)
  ∧ same_content (fst (api_set_username d1 req))
      (fst (api_set_username d2 req)).
Proof.
  intros [Hu Hm]. unfold api_set_username.
  destruct (session_email req) as [e|]; [|done].
  destruct (body req !! "username") as [[| | |u| |]|]; try done.
  destruct (negb (truthy (JStr u)) || (String.length u <? 2)); [done|].
  cbn. rewrite Hu. split; [done|]. split; [done|]. exact Hm.
Qed.

Lemma step_same s1 s2 i :
  same_state s1 s2 →
  snd (step s1 i) = snd (step s2 i)
  ∧ same_state (fst (step s1 i)) (fst (step s2 i)).
Proof.
  intros [[Hu Hm] Hc].
  destruct i as [id auth now|id text now|id now|req]; cbn [step].
  - unfold on_connection. rewrite Hu, Hm, Hc.
    repeat case_match; cbn; repeat split; done.
  - unfold handlers_of. rewrite Hc.
    destruct (List.find _ (clients s2)) as [c|]; [|done].
    unfold on_sendMessage. rewrite Hm, Hc.
    repeat case_match; cbn; repeat split; done.
  - unfold handlers_of. rewrite Hc.
    destruct (List.find _ (clients s2)) as [c|]; [|done].
    unfold on_disconnect. rewrite Hc. cbn. repeat split; done.
  - destruct (api_set_username_same (data s1) (data s2) req) as [_ Hsame];
      [done|].
    cbn. repeat split; try done; apply Hsame.
Qed.

Lemma run_same inputs : ∀ s1 s2,
  same_state s1 s2 →
  snd (run s1 inputs) = snd (run s2 inputs)
  ∧ same_state (fst (run s1 inputs)) (fst (run s2 inputs)).
Proof.
  induction inputs as [|i rest IH]; intros s1 s2 Hsame; cbn [run]; [done|].
  destruct (step_same s1 s2 i Hsame) as [Hout Hnext].
  destruct (step s1 i) as [s1' out1], (step s2 i) as [s2' out2].
  cbn [fst snd] in *. destruct (IH s1' s2' Hnext) as [Hrest Hlast].
  destruct (run s1' rest) as [s1'' out1'], (run s2' rest) as [s2'' out2'].
  cbn [fst snd] in *. by subst.
Qed.

(** C9.  A file that cannot be read or parsed counts as the empty document
    of its kind, an empty mapping or an empty log, for every operation that
    reads it: the replies of [GET /api/user], [POST /api/set-username] and
    [GET /api/messages], and what the admission check and the submission of
    a message send and store, are those of the same operation over the
    repaired disk.  No operation has an error outcome of its own for an
    unreadable file. *)
Theorem unreadable_as_empty (d : disk) (req : request) (cs : list client)
    (inputs : list input) :
  repaired (Disk Unreadable Unreadable) = Disk (Document ∅) (Document [])
  ∧ api_user d req = api_user (repaired d) req
  ∧ api_messages d = api_messages (repaired d)
  ∧ snd (api_set_username d req) = snd (api_set_username (repaired d) req)
  ∧ same_content (fst (api_set_username d req))
      (fst (api_set_username (repaired d) req))
  ∧ snd (run (Server d cs) inputs) = snd (run (Server (repaired d) cs) inputs)
  ∧ same_state (fst (run (Server d cs) inputs))
      (fst (run (Server (repaired d) cs) inputs)).
Proof.
  pose proof (same_content_repaired d) as Hsame.
  pose proof (api_set_username_same d (repaired d) req Hsame) as [Hreply Hdisk].
  assert (Hstate : same_state (Server d cs) (Server (repaired d) cs))
    by (by split).
  destruct (run_same inputs _ _ Hstate) as [Hout Hlast].
  destruct Hsame as [Hu Hm].
  repeat split; try done.
  - unfold api_user. by rewrite Hu.
  - apply Hdisk.
  - apply Hdisk.
  - apply Hlast.
  - apply Hlast.
  - apply Hlast.
Qed.

(** * Further properties *)

(** ** Which handler writes which file *)

Lemma step_files s i :
  (USERS_FILE (data (fst (step s i))) = USERS_FILE (data s)
   ∨ ∃ req, i = SetUsername req)
  ∧ (MESSAGES_FILE (data (fst (step s i))) = MESSAGES_FILE (data s)
     ∨ created_by s i ≠ [])
  ∧ (clients (fst (step s i)) = clients s
     ∨ (∃ id auth now, i = Connection id auth now)
     ∨ ∃ id now, i = Disconnect id now).
Proof.
  destruct i as [id auth now|id text now|id now|req]; cbn [step created_by].
  - destruct (on_connection_cases s id auth now) as [[_ Hadm]|[_ Hrej]].
    + destruct Hadm as (e & u & _ & _ & ->). cbn. eauto 10.
    + rewrite Hrej. eauto 10.
  - destruct (handlers_of s id) as [c|]; [|by destruct text as [[]|]; auto].
    unfold on_sendMessage. destruct text as [[| | |t| |]|]; auto.
    destruct (truthy (JStr t)); cbn; auto.
  - destruct (handlers_of s id) as [c|]; cbn; eauto 10.
  - unfold api_set_username. repeat case_match; cbn; eauto 10.
Qed.

Lemma api_set_username_users d1 d2 req :
  read_users d1 = read_users d2 →
  read_users (fst (api_set_username d1 req))
  = read_users (fst (api_set_username d2 req)).
Proof.
  intros Hu. unfold api_set_username.
  destruct (session_email req) as [e|]; [|done].
  destruct (body req !! "username") as [[| | |u| |]|]; try done.
  destruct (negb (truthy (JStr u)) || (String.length u <? 2)); [done|].
  cbn. by rewrite Hu.
Qed.

Lemma replay_users reqs : ∀ d1 d2,
  read_users d1 = read_users d2 →
  read_users (replay d1 reqs) = read_users (replay d2 reqs).
Proof.
  induction reqs as [|req reqs IH]; intros d1 d2 Hu; [done|].
  cbn. apply IH. by apply api_set_username_users.
Qed.

Lemma set_requests_cons i rest :
  set_requests (i :: rest) = set_requests [i] ++ set_requests rest.
Proof. unfold set_requests. cbn. by destruct i. Qed.

Lemma step_users s i :
  read_users (data (fst (step s i)))
  = read_users (replay (data s) (set_requests [i])).
Proof.
  destruct (step_files s i) as ([Hsame|[req ->]] & _ & _); [|done].
  unfold read_users at 1. rewrite Hsame. destruct i; try done.
  cbn. unfold read_users. by rewrite <- Hsame.
Qed.

Lemma run_users inputs : ∀ s,
  read_users (data (fst (run s inputs)))
  = read_users (replay (data s) (set_requests inputs)).
Proof.
  induction inputs as [|i rest IH]; intros s; [done|].
  cbn [run]. pose proof (step_users s i) as Hu.
  destruct (step s i) as [s1 out1]. specialize (IH s1).
  destruct (run s1 rest) as [s2 out2]. cbn [fst] in *.
  rewrite IH, set_requests_cons. unfold replay at 2. rewrite foldl_app.
  by apply replay_users.
Qed.

(** X1.  The socket handlers never write the user store: after any run the
    mapping is the one obtained by serving the set-username requests of the
    run alone, in their order, and a run without such a request leaves the
    users file itself as it was, an unreadable file included. *)
Theorem identity_store_replay (s : server) (inputs : list input) :
  read_users (data (fst (run s inputs)))
  = read_users (replay (data s) (set_requests inputs))
  ∧ (set_requests inputs = [] →
     USERS_FILE (data (fst (run s inputs))) = USERS_FILE (data s)).
Proof.
  split; [apply run_users|].
  revert s. induction inputs as [|i rest IH]; intros s; [done|].
  cbn [run]. pose proof (step_files s i) as (Hfile & _ & _).
  destruct (step s i) as [s1 out1]. specialize (IH s1).
  destruct (run s1 rest) as [s2 out2]. cbn [fst] in *.
  rewrite set_requests_cons. intros [Hi Hrest]%app_eq_nil.
  rewrite IH by done. destruct Hfile as [?|[req ->]]; done.
Qed.

Lemma identity_store_replay_witness :
  set_requests (Sample.alice_joins ++ [Sample.alice_says_hi]) = []
  ∧ USERS_FILE
      (data (fst (run (Server (Disk Unreadable Unreadable) [])
                    (Sample.alice_joins ++ [Sample.alice_says_hi]))))
    = Unreadable.
Proof.
  assert (Hnone : set_requests (Sample.alice_joins ++ [Sample.alice_says_hi])
                  = []) by reflexivity.
  split; [exact Hnone|].
  apply (identity_store_replay (Server (Disk Unreadable Unreadable) [])
           (Sample.alice_joins ++ [Sample.alice_says_hi])).
  exact Hnone.
Defined.

(** X2.  The message log is written by accepted submissions only: a run in
    which no record is created leaves the messages file as it was, so a log
    that is longer than 500 records is served whole, by [GET /api/messages]
    as by the init event, until the next accepted submission. *)
Theorem log_written_by_submissions_only (s : server) (inputs : list input) :
  submitted s inputs = [] →
  MESSAGES_FILE (data (fst (run s inputs))) = MESSAGES_FILE (data s)
  ∧ api_messages (data (fst (run s inputs))) = api_messages (data s).
Proof.
  intros Hnone.
  assert (Hfile : MESSAGES_FILE (data (fst (run s inputs)))
                  = MESSAGES_FILE (data s)).
  { revert s Hnone.
    induction inputs as [|i rest IH]; intros s Hnone; [done|].
    cbn [run submitted] in *. apply app_eq_nil in Hnone as [Hi Hrest].
    pose proof (step_files s i) as (_ & Hfile & _).
    destruct (step s i) as [s1 out1]. specialize (IH s1 Hrest).
    destruct (run s1 rest) as [s2 out2]. cbn [fst] in *.
    rewrite IH. by destruct Hfile. }
  split; [done|]. unfold api_messages, read_messages. by rewrite Hfile.
Qed.

Lemma log_written_by_submissions_only_witness :
  submitted
    (Server (Disk (Document Sample.users)
               (Document (replicate 501 (Sample.record "old")))) [])
    (Sample.alice_joins ++ [Sample.bob_joins; Disconnect 1 8%Z]) = []
  ∧ length
      (api_messages
         (data (fst (run
            (Server (Disk (Document Sample.users)
                       (Document (replicate 501 (Sample.record "old")))) [])
            (Sample.alice_joins ++ [Sample.bob_joins; Disconnect 1 8%Z])))))
    = 501.
Proof.
  assert (Hnone : submitted
    (Server (Disk (Document Sample.users)
               (Document (replicate 501 (Sample.record "old")))) [])
    (Sample.alice_joins ++ [Sample.bob_joins; Disconnect 1 8%Z]) = [])
    by reflexivity.
  split; [exact Hnone|].
  destruct (log_written_by_submissions_only _ _ Hnone) as [_ ->].
  vm_compute. reflexivity.
Defined.

(** ** Display names, one call after another *)

Lemma js_set_js_set users e u1 u2 :
  js_set (js_set users e u1) e u2 = js_set users e u2.
Proof.
  unfold js_set. destruct (users !! e) eqn:He.
  - by rewrite lookup_insert_eq, insert_insert_eq.
  - destruct (String.eqb e "__proto__"); [by rewrite He|].
    by rewrite lookup_insert_eq, insert_insert_eq.
Qed.

Lemma api_set_username_accepts d req e u :
  session_email req = Some e →
  body req !! "username" = Some (JStr u) →
  2 ≤ String.length u →
  api_set_username d req
  = (Disk (Document (js_set (read_users d) e u)) (MESSAGES_FILE d), SetOk u).
Proof.
  intros He Hu Hlen. unfold api_set_username.
  by rewrite He, Hu, name_guard_passes.
Qed.

Lemma api_set_username_outcome d req :
  (fst (api_set_username d req) = d
   ∧ ∃ status error, snd (api_set_username d req) = SetError status error)
  ∨ ∃ e u, session_email req = Some e
      ∧ body req !! "username" = Some (JStr u)
      ∧ 2 ≤ String.length u
      ∧ api_set_username d req
        = (Disk (Document (js_set (read_users d) e u)) (MESSAGES_FILE d),
           SetOk u).
Proof.
  unfold api_set_username. destruct (session_email req) as [e|]; [|eauto 10].
  destruct (body req !! "username") as [[| | |u| |]|]; eauto 10.
  destruct (negb (truthy (JStr u)) || (String.length u <? 2)) eqn:Hguard;
    [eauto 10|].
  right. exists e, u. apply orb_false_iff in Hguard as [_ Hlen].
  apply Nat.ltb_ge in Hlen. done.
Qed.

(** X3.  The last accepted name wins.  When a caller's set-username request
    is accepted, the mapping that results is the one the request would have
    produced alone, whatever an earlier request of the same caller did: an
    earlier name is overwritten, and repeating a request changes nothing. *)
Theorem set_username_last_wins (d : disk) (req1 req2 : request)
    (e u : string) :
  session_email req1 = Some e →
  session_email req2 = Some e →
  body req2 !! "username" = Some (JStr u) →
  2 ≤ String.length u →
  snd (api_set_username (fst (api_set_username d req1)) req2) = SetOk u
  ∧ read_users (fst (api_set_username (fst (api_set_username d req1)) req2))
    = read_users (fst (api_set_username d req2))
  ∧ read_users (fst (api_set_username (fst (api_set_username d req2)) req2))
    = read_users (fst (api_set_username d req2)).
Proof.
  intros He1 He2 Hu Hlen.
  rewrite !(api_set_username_accepts _ req2 e u) by done. cbn [fst snd].
  split; [done|]. unfold read_users at 1 3 4. cbn. split.
  - destruct (api_set_username_outcome d req1)
      as [[-> _]|(e1 & u1 & He1' & _ & _ & ->)]; [done|].
    cbn [fst]. unfold read_users at 1. cbn.
    replace e1 with e by congruence. apply js_set_js_set.
  - unfold read_users at 1. cbn. apply js_set_js_set.
Qed.

Lemma set_username_last_wins_witness :
  2 ≤ String.length "al"
  ∧ read_users
      (fst (api_set_username
              (fst (api_set_username Sample.files
                      (Sample.session "a@x.com" (Some (JStr "alicia")))))
              (Sample.session "a@x.com" (Some (JStr "al")))))
    = read_users
        (fst (api_set_username Sample.files
                (Sample.session "a@x.com" (Some (JStr "al"))))).
Proof.
  assert (Hlen : 2 ≤ String.length "al") by (vm_compute; lia).
  split; [exact Hlen|].
  apply (set_username_last_wins Sample.files
           (Sample.session "a@x.com" (Some (JStr "alicia")))
           (Sample.session "a@x.com" (Some (JStr "al"))) "a@x.com" "al");
    [reflexivity | reflexivity | reflexivity | exact Hlen].
Defined.

Lemma js_set_keeps users e u k :
  is_Some (users !! k) → is_Some (js_set users e u !! k).
Proof.
  intros Hk. unfold js_set.
  destruct (users !! e), (String.eqb e "__proto__"); try done;
    rewrite lookup_insert; case_decide; by subst.
Qed.

Lemma api_set_username_keeps d req k :
  is_Some (read_users d !! k) →
  is_Some (read_users (fst (api_set_username d req)) !! k).
Proof.
  intros Hk.
  destruct (api_set_username_outcome d req)
    as [[-> _]|(e & u & _ & _ & _ & ->)]; [done|].
  cbn. by apply js_set_keeps.
Qed.

Lemma api_set_username_other d req k :
  session_email req ≠ Some k →
  read_users (fst (api_set_username d req)) !! k = read_users d !! k.
Proof.
  intros Hne.
  destruct (api_set_username_outcome d req)
    as [[-> _]|(e & u & He & _ & _ & ->)]; [done|].
  cbn. apply js_set_other. congruence.
Qed.

(** X4.  An Identity Record is never deleted, and it changes only through
    its owner: along any run every email that has a stored display name
    keeps one, and the name stored under an email is the same after the run
    as before unless the run holds a set-username request of a session with
    that very email. *)
Theorem identity_records_persist (s : server) (inputs : list input) :
  (∀ k, is_Some (read_users (data s) !! k) →
        is_Some (read_users (data (fst (run s inputs))) !! k))
  ∧ (∀ k, (∀ req, req ∈ set_requests inputs → session_email req ≠ Some k) →
          read_users (data (fst (run s inputs))) !! k
          = read_users (data s) !! k).
Proof.
  rewrite run_users. generalize (set_requests inputs) as reqs.
  generalize (data s) as d. clear s inputs. intros d reqs. split.
  - revert d. induction reqs as [|req reqs IH]; intros d k Hk; [done|].
    cbn. by apply IH, api_set_username_keeps.
  - revert d. induction reqs as [|req reqs IH]; intros d k Hreqs; [done|].
    cbn. rewrite IH by (intros r Hr; apply Hreqs; by right).
    apply api_set_username_other, Hreqs. by left.
Qed.

Lemma identity_records_persist_witness :
  is_Some (read_users (data Sample.chat) !! "b@x.com")
  ∧ is_Some
      (read_users
         (data (fst (run Sample.chat
                       [SetUsername
                          (Sample.session "a@x.com" (Some (JStr "al")));
                        Sample.alice_says_hi; Disconnect 2 9%Z])))
       !! "b@x.com").
Proof.
  assert (Hbob : is_Some (read_users (data Sample.chat) !! "b@x.com"))
    by (eexists; reflexivity).
  split; [exact Hbob|].
  apply (identity_records_persist Sample.chat
           [SetUsername (Sample.session "a@x.com" (Some (JStr "al")));
            Sample.alice_says_hi; Disconnect 2 9%Z]).
  exact Hbob.
Defined.

(** ** Well-formed identity mappings *)

Lemma identity_records_spec users :
  identity_records users = true
  ↔ ∀ k v, users !! k = Some v → is_address k = true ∧ is_name v = true.
Proof.
  split; [intros Hall k v; by apply identity_records_lookup|].
  intros Hall. unfold identity_records. apply forallb_forall.
  intros [k v] Hkv%list_elem_of_In%elem_of_map_to_list.
  apply andb_true_iff. by apply Hall.
Qed.

Lemma address_not_reserved e :
  is_address e = true → e ≠ "" ∧ e ≠ "__proto__".
Proof. intros He. split; intros ->; done. Qed.

Lemma js_set_lookup users e u k :
  e ≠ "__proto__" →
  js_set users e u !! k = if decide (e = k) then Some (JStr u) else users !! k.
Proof.
  intros He. unfold js_set.
  destruct (String.eqb_spec e "__proto__") as [|_]; [done|].
  destruct (users !! e); by rewrite lookup_insert.
Qed.

Lemma identity_records_js_set users e u :
  identity_records users = true → is_address e = true →
  2 ≤ String.length u →
  identity_records (js_set users e u) = true.
Proof.
  rewrite !identity_records_spec. intros Hall He Hlen k v.
  rewrite js_set_lookup by (by apply address_not_reserved).
  case_decide as Hk; [|by apply Hall].
  intros [= <-]. subst k. split; [done|].
  change ((2 <=? String.length u) = true). by apply Nat.leb_le.
Qed.

Lemma identity_records_replay reqs : ∀ d,
  identity_records (read_users d) = true →
  (∀ req e, req ∈ reqs → session_email req = Some e → is_address e = true) →
  identity_records (read_users (replay d reqs)) = true.
Proof.
  induction reqs as [|req reqs IH]; intros d Hd Hreqs; [done|].
  cbn. apply IH; [|intros r e Hr; apply Hreqs; by right].
  destruct (api_set_username_outcome d req)
    as [[-> _]|(e & u & He & _ & Hlen & ->)]; [done|].
  cbn. apply identity_records_js_set; [done| |done].
  apply (Hreqs req); [by left | done].
Qed.

(** X5.  The identity mapping stays well formed.  When every key of the
    mapping is an e-mail address and every value a string of at least two
    characters, and the sessions that ask for a username carry e-mail
    addresses, the mapping has the same form after any run; the mapping of
    a server started on an empty data directory has it. *)
Theorem identity_records_kept (s : server) (inputs : list input) :
  identity_records (read_users (data (startup None))) = true
  ∧ (identity_records (read_users (data s)) = true →
     (∀ req e, req ∈ set_requests inputs → session_email req = Some e →
               is_address e = true) →
     identity_records (read_users (data (fst (run s inputs)))) = true).
Proof.
  split; [reflexivity|]. intros Hs Hreqs. rewrite run_users.
  by apply identity_records_replay.
Qed.

Lemma identity_records_kept_witness :
  identity_records (read_users (data Sample.start)) = true
  ∧ identity_records
      (read_users
         (data (fst (run Sample.start
                       (Sample.alice_joins
                        ++ [SetUsername
                              (Sample.session "c@x.com"
                                 (Some (JStr "carol")))])))))
    = true.
Proof.
  assert (Hstart : identity_records (read_users (data Sample.start)) = true)
    by reflexivity.
  split; [exact Hstart|].
  apply (identity_records_kept Sample.start
           (Sample.alice_joins
            ++ [SetUsername (Sample.session "c@x.com" (Some (JStr "carol")))])).
  - exact Hstart.
  - intros req e Hreq He. vm_compute in Hreq.
    apply list_elem_of_In in Hreq. destruct Hreq as [<-|[]].
    vm_compute in He. injection He as <-. reflexivity.
Defined.

(** ** From a stored name to an open connection *)

Lemma accepts_iff s id auth now :
  accepts s id auth now
  ↔ refused (read_users (data s)) (asserted auth "email")
      (asserted auth "username") = false.
Proof.
  destruct (on_connection_cases s id auth now) as [[Href Hadm]|[Href Hrej]].
  - done.
  - split; [|congruence]. intros Hadm.
    by apply rejection_not_admission in Hrej.
Qed.

Lemma asserted_handshake email username :
  asserted (handshake email username) "email" = Some email
  ∧ asserted (handshake email username) "username" = Some username.
Proof. unfold asserted, handshake. cbn. by simplify_map_eq. Qed.

Lemma accepts_handshake s id email username now :
  accepts s id (handshake email username) now
  ↔ truthy email = true ∧ truthy username = true
    ∧ primitive username = true
    ∧ read_users (data s) !! to_string email = Some username.
Proof.
  rewrite accepts_iff, refused_spec.
  destruct (asserted_handshake email username) as [-> ->]. split.
  - by intros (e & u & [= <-] & [= <-] & ?).
  - intros ?. by exists email, username.
Qed.

(** X6.  Setting a username and connecting.  Right after a session has set
    a username (its email being neither empty nor the reserved property
    name [__proto__]), a socket that asserts this email is admitted with
    exactly that username: any other asserted username, the one stored
    before included, is refused. *)
Theorem registered_name_admits (d : disk) (req : request) (e u : string)
    (cs : list client) (id : nat) (now : Z) (asserted_name : json) :
  session_email req = Some e →
  body req !! "username" = Some (JStr u) →
  2 ≤ String.length u →
  e ≠ "" → e ≠ "__proto__" →
  accepts (Server (fst (api_set_username d req)) cs) id
    (handshake (JStr e) asserted_name) now
  ↔ asserted_name = JStr u.
Proof.
  intros He Hu Hlen Hne Hproto.
  rewrite accepts_handshake, (api_set_username_accepts _ _ e u) by done.
  cbn [fst data to_string]. unfold read_users. cbn.
  rewrite js_set_lookup by done. rewrite decide_True by done. split.
  - by intros (_ & _ & _ & [= <-]).
  - intros ->. repeat split.
    + cbn. by destruct (String.eqb_spec e "").
    + destruct u; [cbn in Hlen; lia | done].
Qed.

Lemma registered_name_admits_witness :
  2 ≤ String.length "alicia"
  ∧ accepts
      (Server (fst (api_set_username Sample.files
                      (Sample.session "a@x.com" (Some (JStr "alicia")))))
         [])
      3 (handshake (JStr "a@x.com") (JStr "alicia")) 9%Z
  ∧ ¬ accepts
      (Server (fst (api_set_username Sample.files
                      (Sample.session "a@x.com" (Some (JStr "alicia")))))
         [])
      3 (handshake (JStr "a@x.com") (JStr "alice")) 9%Z.
Proof.
  assert (Hlen : 2 ≤ String.length "alicia") by (vm_compute; lia).
  assert (Hnew : ∀ name,
    accepts
      (Server (fst (api_set_username Sample.files
                      (Sample.session "a@x.com" (Some (JStr "alicia")))))
         [])
      3 (handshake (JStr "a@x.com") name) 9%Z
    ↔ name = JStr "alicia").
  { intros name.
    apply (registered_name_admits Sample.files
             (Sample.session "a@x.com" (Some (JStr "alicia")))
             "a@x.com" "alicia" [] 3 9%Z name);
      [reflexivity | reflexivity | exact Hlen | discriminate
      | discriminate]. }
  split; [exact Hlen|]. split.
  - apply Hnew. reflexivity.
  - intros Hold. apply Hnew in Hold. discriminate.
Defined.

(** X7.  Display names are not unique.  Two sessions with different emails
    (neither empty nor [__proto__]) can set the same username: the second
    request is accepted like the first, and afterwards a socket is admitted
    under that name with either email. *)
Theorem shared_display_name (d : disk) (req1 req2 : request)
    (e1 e2 u : string) (cs : list client) (id : nat) (now : Z) :
  session_email req1 = Some e1 → session_email req2 = Some e2 →
  body req1 !! "username" = Some (JStr u) →
  body req2 !! "username" = Some (JStr u) →
  2 ≤ String.length u →
  e1 ≠ "" → e1 ≠ "__proto__" → e2 ≠ "" → e2 ≠ "__proto__" → e1 ≠ e2 →
  let d' := fst (api_set_username (fst (api_set_username d req1)) req2) in
  snd (api_set_username (fst (api_set_username d req1)) req2) = SetOk u
  ∧ accepts (Server d' cs) id (handshake (JStr e1) (JStr u)) now
  ∧ accepts (Server d' cs) id (handshake (JStr e2) (JStr u)) now.
Proof.
  intros He1 He2 Hu1 Hu2 Hlen Hne1 Hproto1 Hne2 Hproto2 Hdiff d'. subst d'.
  rewrite (api_set_username_accepts d req1 e1 u) by done. cbn [fst].
  rewrite (api_set_username_accepts _ req2 e2 u) by done. cbn [fst snd].
  split; [done|]. rewrite !accepts_handshake. cbn [data to_string].
  unfold read_users. cbn. rewrite !js_set_lookup by done.
  rewrite (decide_False (P := e2 = e1)) by done.
  rewrite !decide_True by done.
  assert (Hname : truthy (JStr u) = true)
    by (destruct u; [cbn in Hlen; lia | done]).
  assert (He : ∀ e, e ≠ "" → truthy (JStr e) = true)
    by (intros e ?; cbn; by destruct (String.eqb_spec e "")).
  repeat split; auto; by apply He.
Qed.

Lemma shared_display_name_witness :
  2 ≤ String.length "sam" ∧ "a@x.com" ≠ "b@x.com"
  ∧ accepts
      (Server
         (fst (api_set_username
                 (fst (api_set_username (Disk Unreadable Unreadable)
                         (Sample.session "a@x.com" (Some (JStr "sam")))))
                 (Sample.session "b@x.com" (Some (JStr "sam")))))
         [])
      1 (handshake (JStr "a@x.com") (JStr "sam")) 0%Z.
Proof.
  assert (Hlen : 2 ≤ String.length "sam") by (vm_compute; lia).
  assert (Hdiff : "a@x.com" ≠ "b@x.com") by discriminate.
  split; [exact Hlen|]. split; [exact Hdiff|].
  apply (shared_display_name (Disk Unreadable Unreadable)
           (Sample.session "a@x.com" (Some (JStr "sam")))
           (Sample.session "b@x.com" (Some (JStr "sam")))
           "a@x.com" "b@x.com" "sam" [] 1 0%Z);
    [reflexivity | reflexivity | reflexivity | reflexivity | exact Hlen
    | discriminate | discriminate | discriminate | discriminate
    | exact Hdiff].
Defined.

(** ** Connections that stay open *)

Lemma find_app_some {A} (f : A → bool) l1 l2 x :
  List.find f l1 = Some x → List.find f (l1 ++ l2) = Some x.
Proof.
  induction l1 as [|y l1 IH]; [done|]. cbn. by destruct (f y).
Qed.

Lemma find_others id id' cs :
  id ≠ id' →
  List.find (λ c, sid c =? id) (others id' cs)
  = List.find (λ c, sid c =? id) cs.
Proof.
  intros Hne. induction cs as [|c cs IH]; [done|]. unfold others in *. cbn.
  destruct (Nat.eqb_spec (sid c) id') as [Hc|Hc]; cbn.
  - destruct (Nat.eqb_spec (sid c) id) as [?|_]; [congruence | done].
  - by rewrite IH.
Qed.

Lemma cons_in_omap {A B} (f : A → option B) x l y :
  y ∈ omap f [x] ∨ y ∈ omap f l → y ∈ omap f (x :: l).
Proof. cbn. destruct (f x); set_solver. Qed.

Lemma step_handlers s i id c :
  handlers_of s id = Some c → id ∉ disconnect_ids [i] →
  handlers_of (fst (step s i)) id = Some c.
Proof.
  intros Hc Hi. destruct i as [id' auth now|id' text now|id' now|req];
    cbn [step].
  - destruct (on_connection_cases s id' auth now) as [[_ Hadm]|[_ ->]];
      [|done].
    destruct Hadm as (e & u & _ & _ & ->). by apply find_app_some.
  - destruct (handlers_of s id') as [c'|]; [|done].
    unfold on_sendMessage. by repeat case_match.
  - assert (Hne : id ≠ id').
    { intros ->. apply Hi. cbn. set_solver. }
    destruct (handlers_of s id') as [c'|] eqn:Hc'; [|done].
    apply handlers_of_Some in Hc' as [_ <-].
    unfold handlers_of in *. cbn. by rewrite find_others.
  - done.
Qed.

Lemma run_handlers inputs : ∀ s id c,
  handlers_of s id = Some c → id ∉ disconnect_ids inputs →
  handlers_of (fst (run s inputs)) id = Some c.
Proof.
  induction inputs as [|i rest IH]; intros s id c Hc Hi; [done|].
  cbn [run]. pose proof (step_handlers s i id c Hc) as Hstep.
  destruct (step s i) as [s1 out1]. cbn [fst] in Hstep.
  specialize (IH s1 id c). destruct (run s1 rest) as [s2 out2].
  cbn [fst] in *. apply IH.
  - apply Hstep. intros Hin. apply Hi. apply cons_in_omap. by left.
  - intros Hin. apply Hi. apply cons_in_omap. by right.
Qed.

(** X8.  A connection keeps the identity it was admitted with.  As long as
    a socket is not disconnected, whatever else happens (other sockets come
    and go, messages are sent, its owner or anybody else sets a new
    username), its handlers stay bound to the same email and username, and
    a text it submits is recorded and broadcast under that username. *)
Theorem bound_name_survives (s : server) (inputs : list input) (id : nat)
    (c : client) (t : string) (now : Z) :
  handlers_of s id = Some c → id ∉ disconnect_ids inputs → t ≠ "" →
  let s' := fst (run s inputs) in
  handlers_of s' id = Some c
  ∧ step s' (SendMessage id (Some (JStr t)) now)
    = (Server (Disk (USERS_FILE (data s'))
                 (Document
                    (last_n 500 (message_log s' ++ [new_message c t now]))))
         (clients s'),
       io_emit (clients s') (Message (new_message c t now))).
Proof.
  intros Hc Hi Ht s'. assert (Hc' : handlers_of s' id = Some c)
    by (by apply run_handlers).
  split; [done|]. cbn [step]. rewrite Hc'. by apply on_sendMessage_accepts.
Qed.

Lemma bound_name_survives_witness :
  handlers_of Sample.chat 1 = Some Sample.alice
  ∧ snd (step
           (fst (run Sample.chat
                   [SetUsername
                      (Sample.session "a@x.com" (Some (JStr "alicia")))]))
           (SendMessage 1 (Some (JStr "hi")) 7%Z))
    = [(1, Message (Sample.record "hi")); (2, Message (Sample.record "hi"))].
Proof.
  assert (Hc : handlers_of Sample.chat 1 = Some Sample.alice) by reflexivity.
  split; [exact Hc|].
  assert (Hi : 1 ∉ disconnect_ids
                 [SetUsername
                    (Sample.session "a@x.com" (Some (JStr "alicia")))])
    by (vm_compute; apply not_elem_of_nil).
  assert (Ht : "hi" ≠ "") by discriminate.
  destruct (bound_name_survives Sample.chat _ 1 Sample.alice "hi" 7%Z
              Hc Hi Ht) as [_ Hstep].
  rewrite Hstep. reflexivity.
Defined.

(** ** Every client reads the same conversation *)

Lemma messages_for_app id out1 out2 :
  messages_for id (out1 ++ out2)
  = messages_for id out1 ++ messages_for id out2.
Proof. unfold messages_for. by rewrite events_for_app, omap_app. Qed.

Lemma messages_for_silent id out :
  Forall (λ d, ∀ msg, snd d ≠ Message msg) out → messages_for id out = [].
Proof.
  induction 1 as [|[id' e] out He _ IH]; [done|].
  unfold messages_for in *. rewrite events_for_cons.
  destruct (id' =? id); [|done]. cbn. destruct e; try done.
  by destruct (He msg).
Qed.

Lemma broadcast_system_silent id id' cs text ts :
  messages_for id (broadcast_emit id' cs (System text ts)) = [].
Proof.
  apply messages_for_silent. unfold broadcast_emit.
  by apply Forall_map, Forall_forall.
Qed.

Lemma messages_for_io_emit id cs msg :
  messages_for id (io_emit cs (Message msg))
  = replicate (length (List.filter (λ c, sid c =? id) cs)) msg.
Proof.
  induction cs as [|c cs IH]; [done|]. unfold messages_for, io_emit in *.
  cbn [map List.filter]. rewrite events_for_cons.
  destruct (sid c =? id); [|done]. cbn. by rewrite IH.
Qed.

Lemma connections_of_others id id' cs :
  id ≠ id' →
  List.filter (λ c, sid c =? id) (others id' cs)
  = List.filter (λ c, sid c =? id) cs.
Proof.
  intros Hne. induction cs as [|c cs IH]; [done|]. unfold others in *. cbn.
  destruct (Nat.eqb_spec (sid c) id') as [Hc|Hc]; cbn.
  - destruct (Nat.eqb_spec (sid c) id) as [?|_]; [congruence | done].
  - by rewrite IH.
Qed.

Lemma step_messages_for s i id :
  connections_of id s = 1 → messages_for id (snd (step s i)) = created_by s i.
Proof.
  intros Hone.
  destruct i as [id' auth now|id' text now|id' now|req]; cbn [step created_by].
  - destruct (on_connection_cases s id' auth now) as [[_ Hadm]|[_ ->]].
    + destruct Hadm as (e & u & _ & _ & ->). cbn [snd].
      change ((id', Init (message_log s)) :: ?l)
        with ([(id', Init (message_log s))] ++ l).
      rewrite messages_for_app, broadcast_system_silent, app_nil_r.
      apply messages_for_silent. by repeat constructor.
    + apply messages_for_silent. by repeat constructor.
  - destruct (handlers_of s id') as [c|]; [|by destruct text as [[]|]].
    unfold on_sendMessage. destruct text as [[| | |t| |]|]; try done.
    destruct (truthy (JStr t)); [|done]. cbn [negb snd].
    rewrite messages_for_io_emit. unfold connections_of in Hone.
    by rewrite Hone.
  - destruct (handlers_of s id') as [c|]; [|done]. cbn.
    apply broadcast_system_silent.
  - done.
Qed.

Lemma step_connections_of s i id :
  id ∉ connection_ids [i] → id ∉ disconnect_ids [i] →
  connections_of id (fst (step s i)) = connections_of id s.
Proof.
  intros Hconn Hdisc. unfold connections_of.
  destruct i as [id' auth now|id' text now|id' now|req]; cbn [step].
  - assert (Hne : id' ≠ id) by (intros ->; apply Hconn; cbn; set_solver).
    destruct (on_connection_cases s id' auth now) as [[_ Hadm]|[_ ->]];
      [|done].
    destruct Hadm as (e & u & _ & _ & ->). cbn [fst clients].
    rewrite List.filter_app, length_app. cbn.
    destruct (Nat.eqb_spec id' id) as [?|_]; [done|]. cbn. lia.
  - destruct (handlers_of s id') as [c|]; [|done].
    unfold on_sendMessage. by repeat case_match.
  - assert (Hne : id ≠ id') by (intros ->; apply Hdisc; cbn; set_solver).
    destruct (handlers_of s id') as [c|] eqn:Hc; [|done].
    apply handlers_of_Some in Hc as [_ <-]. cbn.
    by rewrite connections_of_others.
  - done.
Qed.

Lemma run_messages_for inputs : ∀ s id,
  connections_of id s = 1 →
  id ∉ connection_ids inputs → id ∉ disconnect_ids inputs →
  messages_for id (snd (run s inputs)) = submitted s inputs.
Proof.
  induction inputs as [|i rest IH]; intros s id Hone Hconn Hdisc; [done|].
  cbn [run submitted]. pose proof (step_messages_for s i id Hone) as Hout.
  pose proof (step_connections_of s i id) as Hcount.
  destruct (step s i) as [s1 out1]. specialize (IH s1 id).
  destruct (run s1 rest) as [s2 out2]. cbn [fst snd] in *.
  rewrite messages_for_app, Hout. f_equal. apply IH.
  - rewrite Hcount; [done| |]; intros Hin; [apply Hconn | apply Hdisc];
      apply cons_in_omap; by left.
  - intros Hin. apply Hconn, cons_in_omap. by right.
  - intros Hin. apply Hdisc, cons_in_omap. by right.
Qed.

(** X9.  Every client reads the same conversation.  A socket that is
    connected once and stays connected through a run receives, as message
    events, exactly the records created during the run, each one once and
    in the order of their creation; two such sockets therefore receive the
    same records in the same order. *)
Theorem same_conversation (s : server) (inputs : list input) (a b : nat) :
  connections_of a s = 1 →
  a ∉ connection_ids inputs → a ∉ disconnect_ids inputs →
  messages_for a (snd (run s inputs)) = submitted s inputs
  ∧ (connections_of b s = 1 →
     b ∉ connection_ids inputs → b ∉ disconnect_ids inputs →
     messages_for a (snd (run s inputs)) = messages_for b (snd (run s inputs))).
Proof.
  intros Ha Hconn Hdisc. split; [by apply run_messages_for|].
  intros Hb Hconn' Hdisc'. by rewrite !run_messages_for.
Qed.

Lemma same_conversation_witness :
  connections_of 1 Sample.chat = 1
  ∧ messages_for 1
      (snd (run Sample.chat
              [Sample.alice_says_hi; Connection 3 Sample.wrong 8%Z;
               SendMessage 2 (Some (JStr " yo ")) 9%Z]))
    = submitted Sample.chat
        [Sample.alice_says_hi; Connection 3 Sample.wrong 8%Z;
         SendMessage 2 (Some (JStr " yo ")) 9%Z].
Proof.
  assert (Hone : connections_of 1 Sample.chat = 1) by reflexivity.
  split; [exact Hone|].
  assert (Hconn : 1 ∉ connection_ids
    [Sample.alice_says_hi; Connection 3 Sample.wrong 8%Z;
     SendMessage 2 (Some (JStr " yo ")) 9%Z]).
  { vm_compute. intros Hin. apply list_elem_of_In in Hin. cbn in Hin. lia. }
  assert (Hdisc : 1 ∉ disconnect_ids
    [Sample.alice_says_hi; Connection 3 Sample.wrong 8%Z;
     SendMessage 2 (Some (JStr " yo ")) 9%Z])
    by (vm_compute; apply not_elem_of_nil).
  exact (proj1 (same_conversation Sample.chat _ 1 2 Hone Hconn Hdisc)).
Defined.

(** ** Sockets that are not connected *)

Lemma handlers_of_stranger s id : id ∉ sids s → handlers_of s id = None.
Proof.
  intros Hid. unfold handlers_of.
  destruct (List.find _ (clients s)) as [c|] eqn:Hfind; [|done].
  destruct (handlers_of_Some s id c Hfind) as [Hc Hsid].
  destruct Hid. unfold sids. apply list_elem_of_fmap. by exists c.
Qed.

Lemma step_from_stranger s i id :
  id ∉ sids s → from_socket id i = true → step s i = (s, []).
Proof.
  intros Hid%handlers_of_stranger Hi.
  destruct i as [id' auth now|id' text now|id' now|req]; try done;
    cbn in Hi; apply Nat.eqb_eq in Hi as ->; cbn [step]; by rewrite Hid.
Qed.

Lemma run_without_stranger inputs : ∀ s id,
  id ∉ sids s → id ∉ connection_ids inputs →
  run s (without_socket id inputs) = run s inputs.
Proof.
  induction inputs as [|i rest IH]; intros s id Hid Hconn; [done|].
  assert (Hrest : id ∉ connection_ids rest)
    by (intros Hin; apply Hconn, cons_in_omap; by right).
  unfold without_socket in *. cbn [List.filter run].
  destruct (from_socket id i) eqn:Hi; cbn [negb].
  - rewrite (step_from_stranger s i id) by done. rewrite IH by done.
    by destruct (run s rest).
  - cbn [run]. pose proof (step_sids s i id) as Hsids.
    destruct (step s i) as [s1 out1]. cbn [fst] in Hsids.
    rewrite IH; [done| |done].
    intros Hin. destruct (Hsids Hin) as [?|Hnew]; [done|].
    apply Hconn, cons_in_omap. by left.
Qed.

(** X10.  A socket that is not connected cannot act.  The events of a
    socket that was never admitted, or that has left, are dropped without
    any effect: a run gives the same server state and the same deliveries
    with them as without them.  So a socket whose connection was refused
    adds nothing to the log and reaches nobody, whatever it sends. *)
Theorem stranger_is_ignored (s : server) (inputs : list input) (id : nat)
    (auth : option (gmap string json)) (now : Z) :
  id ∉ sids s → id ∉ connection_ids inputs →
  run s (without_socket id inputs) = run s inputs
  ∧ (on_connection s id auth now = (s, rejection id) →
     run s (Connection id auth now :: inputs)
     = (fst (run s (without_socket id inputs)),
        rejection id ++ snd (run s (without_socket id inputs)))).
Proof.
  intros Hid Hconn.
  assert (Hsame : run s (without_socket id inputs) = run s inputs)
    by (by apply run_without_stranger).
  split; [done|]. intros Hrej. cbn [run step]. rewrite Hrej, Hsame.
  by destruct (run s inputs).
Qed.

Lemma stranger_is_ignored_witness :
  on_connection Sample.start 1 Sample.wrong 0%Z = (Sample.start, rejection 1)
  ∧ run Sample.start
      [Connection 1 Sample.wrong 0%Z; Sample.alice_says_hi; Disconnect 1 9%Z]
    = (Sample.start, rejection 1).
Proof.
  assert (Hrej : on_connection Sample.start 1 Sample.wrong 0%Z
                 = (Sample.start, rejection 1)) by reflexivity.
  split; [exact Hrej|].
  assert (Hid : 1 ∉ sids Sample.start) by (vm_compute; apply not_elem_of_nil).
  assert (Hconn : 1 ∉ connection_ids [Sample.alice_says_hi; Disconnect 1 9%Z])
    by (vm_compute; apply not_elem_of_nil).
  destruct (stranger_is_ignored Sample.start
              [Sample.alice_says_hi; Disconnect 1 9%Z] 1 Sample.wrong 0%Z
              Hid Hconn) as [_ Hrun].
  rewrite (Hrun Hrej). reflexivity.
Defined.

(** ** Leaving *)

Lemma others_not_self id cs : id ∉ map sid (others id cs).
Proof.
  intros (c & -> & Hc%elem_of_others)%list_elem_of_fmap. by destruct Hc.
Qed.

Lemma others_idem id cs : others id (others id cs) = others id cs.
Proof. apply others_fresh, others_not_self. Qed.

(** X11.  Leaving.  When a connected socket disconnects, each client that
    remains receives one system event with the text made of the username
    of the leaver and " left", the leaver receives nothing, and no file is
    touched.  From then on the socket is out of the conversation: it
    receives no event of the rest of the run, and what it sends is
    ignored. *)
Theorem leaving (s : server) (id : nat) (c : client) (now : Z)
    (later : list input) :
  handlers_of s id = Some c →
  let r := step s (Disconnect id now) in
  data (fst r) = data s
  ∧ clients (fst r) = others id (clients s)
  ∧ snd r
    = map (λ c', (sid c', System (to_string (c_username c) +:+ " left") now))
        (others id (clients s))
  ∧ events_for id (snd r) = []
  ∧ (id ∉ connection_ids later →
     events_for id (snd (run (fst r) later)) = []
     ∧ run (fst r) (without_socket id later) = run (fst r) later).
Proof.
  intros Hc r. subst r. cbn [step]. rewrite Hc.
  apply handlers_of_Some in Hc as [_ Hsid]. unfold on_disconnect.
  rewrite Hsid. cbn [fst snd data clients].
  assert (Hout : broadcast_emit id (others id (clients s))
                   (System (to_string (c_username c) +:+ " left") now)
                 = map (λ c', (sid c',
                          System (to_string (c_username c) +:+ " left") now))
                     (others id (clients s))).
  { unfold broadcast_emit. by rewrite others_idem. }
  split; [done|]. split; [done|]. split; [done|]. split.
  - apply broadcast_emit_not_self.
  - intros Hlater.
    assert (Hgone : id ∉ sids (Server (data s) (others id (clients s))))
      by apply others_not_self.
    split.
    + by apply run_events_for_stranger.
    + by apply run_without_stranger.
Qed.

Lemma leaving_witness :
  handlers_of Sample.chat 1 = Some Sample.alice
  ∧ snd (step Sample.chat (Disconnect 1 8%Z)) = [(2, System "alice left" 8%Z)]
  ∧ events_for 1
      (snd (run (fst (step Sample.chat (Disconnect 1 8%Z)))
              [SendMessage 2 (Some (JStr "bye")) 9%Z; Sample.alice_says_hi]))
    = [].
Proof.
  assert (Hc : handlers_of Sample.chat 1 = Some Sample.alice) by reflexivity.
  split; [exact Hc|].
  destruct (leaving Sample.chat 1 Sample.alice 8%Z
              [SendMessage 2 (Some (JStr "bye")) 9%Z; Sample.alice_says_hi]
              Hc) as (_ & _ & Hout & _ & Hlater).
  split; [rewrite Hout; reflexivity|].
  apply Hlater. vm_compute. apply not_elem_of_nil.
Defined.

(** ** Start-up *)








(** ** What the routes report and what the socket admits *)

Lemma or_null_data v u :
  or_null v = VData u ∧ u ≠ JNull ↔ v = VData u ∧ truthy u = true.
Proof.
  unfold or_null. destruct v as [|j|name]; cbn.
  - split; [by intros [[= <-] ?] | by intros [? _]].
  - destruct (truthy j) eqn:Hj.
    + split; [by intros [[= <-] _] | intros [[= <-] _]].
      split; [done|]. by intros ->.
    + split; [by intros [[= <-] ?] | intros [[= <-] ?]; congruence].
  - split; [by intros [? _] | by intros [? _]].
Qed.

(** X14.  What [GET /api/user] reports is what the socket admits.  The
    route answers [authenticated: false] exactly when the session has no
    user, no list of emails or an empty one.  Otherwise it answers for the
    first email of the session, and (that email not being empty) a socket
    asserting this email is admitted with a username if and only if that
    username is the one the route reports, a primitive value other than
    null; when the route reports null, no username is admitted. *)
Theorem reported_name_admits (d : disk) (req : request) (cs : list client)
    (id : nat) (now : Z) :
  (api_user d req = Anonymous
   ↔ user req = None
     ∨ ∃ p, user req = Some p ∧ (emails p = None ∨ emails p = Some []))
  ∧ ∀ p e more,
      user req = Some p → emails p = Some (e :: more) → e ≠ "" →
      ∃ username,
        api_user d req
        = Authenticated e (string_or_null (displayName p)) username
        ∧ ∀ u, accepts (Server d cs) id (handshake (JStr e) u) now
               ↔ username = VData u ∧ u ≠ JNull ∧ primitive u = true.
Proof.
  split.
  - unfold api_user, session_email.
    destruct (user req) as [p|]; [|by split; auto].
    destruct (emails p) as [[|e more]|] eqn:Hemails.
    + split; [|done]. intros _. right. exists p. auto.
    + split; [done|]. intros [?|(p' & [= <-] & [?|?])]; congruence.
    + split; [|done]. intros _. right. exists p. auto.
  - intros p e more Hp Hemails He. unfold api_user, session_email.
    rewrite Hp, Hemails. cbn. eexists. split; [reflexivity|].
    intros u. rewrite accepts_handshake. cbn [data to_string truthy].
    assert (Hor : or_null (js_get (read_users d) e) = VData u ∧ u ≠ JNull
                  ↔ read_users d !! e = Some u ∧ truthy u = true).
    { rewrite or_null_data. unfold js_get.
      destruct (read_users d !! e) as [v|]; [|destruct (bool_decide _)];
        split; intros [? ?]; try done; split; congruence. }
    destruct (String.eqb_spec e "") as [|_]; [done|]. cbn [negb]. split.
    + intros (_ & Hu & Hprim & Hlook). split; [|split; [|done]]; by apply Hor.
    + intros (Hname & Hnull & Hprim).
      destruct (proj1 Hor (conj Hname Hnull)) as [Hlook Hu]. done.
Qed.

Lemma reported_name_admits_witness :
  user (Sample.session "a@x.com" None)
  = Some (Profile (Some "A") (Some ["a@x.com"]))
  ∧ accepts Sample.start 1 (handshake (JStr "a@x.com") (JStr "alice")) 0%Z.
Proof.
  assert (Huser : user (Sample.session "a@x.com" None)
                  = Some (Profile (Some "A") (Some ["a@x.com"])))
    by reflexivity.
  split; [exact Huser|].
  destruct (reported_name_admits (data Sample.start)
              (Sample.session "a@x.com" None) [] 1 0%Z) as [_ Hreport].
  destruct (Hreport _ "a@x.com" [] Huser eq_refl) as (username & Hreply & Hiff);
    [discriminate|].
  apply Hiff. vm_compute in Hreply. injection Hreply as <-. done.
Defined.

(** X15.  The asserted email is used as a property key.  A handshake whose
    email is the one-element array holding a stored address is admitted
    like the address itself, with the username stored under it (the array
    is truthy and renders as its element); the connection is then bound to
    the array, which is what its records carry as email. *)
Theorem array_email_is_admitted (s : server) (id : nat) (e u : string)
    (now : Z) :
  read_users (data s) !! e = Some (JStr u) → u ≠ "" → id ∉ sids s →
  accepts s id (handshake (JArr [JStr e]) (JStr u)) now
  ∧ handlers_of
      (fst (on_connection s id (handshake (JArr [JStr e]) (JStr u)) now)) id
    = Some (Client id (JArr [JStr e]) (JStr u)).
Proof.
  intros Hlook Hu Hfresh.
  assert (Hadm : accepts s id (handshake (JArr [JStr e]) (JStr u)) now).
  { apply accepts_handshake. cbn.
    by destruct (String.eqb_spec u "") as [|_]. }
  split; [done|]. destruct Hadm as (e' & u' & He' & Hu' & ->).
  destruct (asserted_handshake (JArr [JStr e]) (JStr u)) as [He'' Hu''].
  rewrite He'' in He'. rewrite Hu'' in Hu'.
  injection He' as <-. injection Hu' as <-.
  unfold handlers_of. cbn [fst clients].
  rewrite find_after_strangers by done. cbn. by rewrite Nat.eqb_refl.
Qed.

Lemma array_email_is_admitted_witness :
  read_users (data Sample.start) !! "a@x.com" = Some (JStr "alice")
  ∧ handlers_of
      (fst (on_connection Sample.start 1
              (handshake (JArr [JStr "a@x.com"]) (JStr "alice")) 5%Z)) 1
    = Some (Client 1 (JArr [JStr "a@x.com"]) (JStr "alice")).
Proof.
  assert (Hlook : read_users (data Sample.start) !! "a@x.com"
                  = Some (JStr "alice")) by reflexivity.
  split; [exact Hlook|].
  assert (Hu : "alice" ≠ "") by discriminate.
  assert (Hfresh : 1 ∉ sids Sample.start)
    by (vm_compute; apply not_elem_of_nil).
  exact (proj2 (array_email_is_admitted Sample.start 1 "a@x.com" "alice" 5%Z
                  Hlook Hu Hfresh)).
Defined.

(** ** The shape of the records *)

Lemma well_bound_record c t now :
  well_bound c = true → well_formed_record (new_message c t now).
Proof.
  unfold well_bound. intros [Hname Haddr]%andb_true_iff.
  destruct c as [id email username]. cbn in *.
  destruct username as [| | |sender| |]; try done.
  destruct (trim_spec t) as (_ & _ & _ & _ & _ & Hstart & Hend).
  exists sender, email, (trim t), now. repeat split; try done.
  by apply Nat.leb_le.
Qed.

Lemma forallb_others id cs :
  forallb well_bound cs = true → forallb well_bound (others id cs) = true.
Proof.
  rewrite !forallb_forall. intros Hall c Hc%list_elem_of_In%elem_of_others.
  apply Hall, list_elem_of_In. by destruct Hc.
Qed.

Lemma step_well_bound s i :
  identity_records (read_users (data s)) = true →
  forallb well_bound (clients s) = true →
  forallb well_bound (clients (fst (step s i))) = true
  ∧ Forall well_formed_record (created_by s i).
Proof.
  intros Hrecords Hclients.
  destruct i as [id auth now|id text now|id now|req]; cbn [step created_by].
  - split; [|constructor].
    destruct (on_connection_cases s id auth now) as [[Href Hadm]|[_ ->]];
      [|done].
    destruct Hadm as (e & u & He & Hu & ->). cbn [fst clients].
    rewrite forallb_app, Hclients. cbn. rewrite andb_true_r.
    apply refused_spec in Href as (e' & u' & He' & Hu' & _ & _ & _ & Hlook).
    rewrite He in He'. rewrite Hu in Hu'.
    injection He' as <-. injection Hu' as <-.
    destruct (identity_records_lookup _ _ _ Hrecords Hlook) as [Haddr Hname].
    unfold well_bound. cbn [c_username c_email]. by rewrite Hname, Haddr.
  - destruct (handlers_of s id) as [c|] eqn:Hc.
    + apply handlers_of_Some in Hc as [Hin _].
      assert (Hbound : well_bound c = true).
      { rewrite forallb_forall in Hclients.
        by apply Hclients, list_elem_of_In. }
      split.
      * unfold on_sendMessage. by repeat case_match.
      * destruct text as [[| | |t| |]|]; try constructor.
        destruct (truthy (JStr t)); [|constructor].
        constructor; [by apply well_bound_record | constructor].
    + split; [done|]. destruct text as [[]|]; constructor.
  - split; [|constructor]. destruct (handlers_of s id) as [c|]; [|done].
    cbn. by apply forallb_others.
  - split; [done | constructor].
Qed.

Lemma run_well_formed inputs : ∀ s,
  identity_records (read_users (data s)) = true →
  forallb well_bound (clients s) = true →
  (∀ req e, req ∈ set_requests inputs → session_email req = Some e →
            is_address e = true) →
  Forall well_formed_record (submitted s inputs).
Proof.
  induction inputs as [|i rest IH]; intros s Hrecords Hclients Hreqs;
    [constructor|].
  cbn [submitted].
  destruct (step_well_bound s i Hrecords Hclients) as [Hnext Hcreated].
  apply Forall_app. split; [done|]. apply IH; [|done|].
  - rewrite step_users. apply identity_records_replay; [done|].
    intros req e Hreq. apply Hreqs. rewrite set_requests_cons.
    apply elem_of_app. by left.
  - intros req e Hreq. apply Hreqs. rewrite set_requests_cons.
    apply elem_of_app. by right.
Qed.

(** X16.  What the validation of usernames buys.  On a server whose
    identity mapping is well formed (e-mail addresses as keys, strings of
    at least two characters as values), whose clients were bound under such
    a mapping, and whose set-username sessions carry e-mail addresses,
    every record created along any run is an object with the four fields
    sender, email, text and ts, in this order, whose sender is a string of
    at least two characters, whose email renders as an e-mail address and
    whose text has no white space at either end.  A server started on an
    empty data directory is such a server. *)
Theorem records_are_well_formed (s : server) (inputs : list input) :
  (identity_records (read_users (data (startup None))) = true
   ∧ forallb well_bound (clients (startup None)) = true)
  ∧ (identity_records (read_users (data s)) = true →
     forallb well_bound (clients s) = true →
     (∀ req e, req ∈ set_requests inputs → session_email req = Some e →
               is_address e = true) →
     Forall well_formed_record (submitted s inputs)).
Proof. split; [by split | apply run_well_formed]. Qed.

Lemma records_are_well_formed_witness :
  identity_records (read_users (data Sample.chat)) = true
  ∧ forallb well_bound (clients Sample.chat) = true
  ∧ Forall well_formed_record
      (submitted Sample.chat
         [Sample.alice_says_hi; SendMessage 2 (Some (JStr " yo ")) 9%Z]).
Proof.
  assert (Hrecords : identity_records (read_users (data Sample.chat)) = true)
    by reflexivity.
  assert (Hclients : forallb well_bound (clients Sample.chat) = true)
    by reflexivity.
  split; [exact Hrecords|]. split; [exact Hclients|].
  destruct (records_are_well_formed Sample.chat
              [Sample.alice_says_hi; SendMessage 2 (Some (JStr " yo ")) 9%Z])
    as [_ Hrun].
  apply (Hrun Hrecords Hclients).
  intros req e Hreq. apply elem_of_nil in Hreq. destruct Hreq.
Defined.

(** ** What is stored is what was broadcast *)

(** X17.  The persisted history is the tail of the conversation.  For a
    socket that is connected once and stays connected through a run
    started with a log within the bound, the Message Log after the run is
    the last 500 of the records of the initial log followed by the records
    the socket received as message events, in the order it received
    them. *)
Theorem history_matches_broadcast (s : server) (inputs : list input)
    (id : nat) :
  length (message_log s) ≤ 500 →
  connections_of id s = 1 →
  id ∉ connection_ids inputs → id ∉ disconnect_ids inputs →
  message_log (fst (run s inputs))
  = last_n 500 (message_log s ++ messages_for id (snd (run s inputs)))
  ∧ api_messages (data (fst (run s inputs)))
    = last_n 500 (message_log s ++ messages_for id (snd (run s inputs))).
Proof.
  intros Hbound Hone Hconn Hdisc. change 500 with MAX in *.
  rewrite run_messages_for by done. split; by apply run_message_log.
Qed.

Lemma history_matches_broadcast_witness :
  length (message_log Sample.chat) ≤ 500
  ∧ connections_of 2 Sample.chat = 1
  ∧ message_log
      (fst (run Sample.chat
              [Sample.alice_says_hi; Disconnect 1 8%Z]))
    = last_n 500
        (message_log Sample.chat
         ++ messages_for 2
              (snd (run Sample.chat
                      [Sample.alice_says_hi; Disconnect 1 8%Z]))).
Proof.
  assert (Hbound : length (message_log Sample.chat) ≤ 500)
    by (vm_compute; lia).
  assert (Hone : connections_of 2 Sample.chat = 1) by reflexivity.
  split; [exact Hbound|]. split; [exact Hone|].
  assert (Hconn : 2 ∉ connection_ids [Sample.alice_says_hi; Disconnect 1 8%Z])
    by (vm_compute; apply not_elem_of_nil).
  assert (Hdisc : 2 ∉ disconnect_ids [Sample.alice_says_hi; Disconnect 1 8%Z]).
  { vm_compute. intros Hin. apply list_elem_of_In in Hin. cbn in Hin. lia. }
  exact (proj1 (history_matches_broadcast Sample.chat _ 2
                  Hbound Hone Hconn Hdisc)).
Defined.
